(** * NMB-cli: the module execution lifecycle of [cli.py]

    A shallow embedding of the module manager of [cli.py] (descriptor
    parsing, dependency installation, the remote session adapter, launch,
    stop and the command loop's fault handling) and the properties of it
    that the specification states.

    Conventions.
    - A Python [str] is a list of Unicode code points, a [bytes] object a
      list of octets; both are lists over [Z].
    - Exceptions are values of [exn]; a computation that may raise returns
      a [result].
    - Methods that touch the file system, the process table, the console or
      the SSH objects are functions [State -> result A * State]. *)

From Stdlib Require Import ZArith Lia String Ascii.
From stdpp Require Import base option list gmap.

Local Open Scope Z_scope.

(** ** Python strings *)

Module Py.

(** A [str] is its code points, a [bytes] object its octets. *)
Abbreviation pystr := (list Z) (only parsing).
Abbreviation bytes := (list Z) (only parsing).

(** A literal of the source, as code points. *)
Definition py (s : string) : pystr :=
  (λ a, Z.of_N (N_of_ascii a)) <$> list_ascii_of_string s.

Definition CR : Z := 13.
Definition LF : Z := 10.

(** [str.isspace] for one code point (the characters [str.strip] removes). *)
Definition is_space (c : Z) : bool :=
  ((9 <=? c) && (c <=? 13)) || ((28 <=? c) && (c <=? 32))
  || (c =? 0x85) || (c =? 0xA0) || (c =? 0x1680)
  || ((0x2000 <=? c) && (c <=? 0x200A))
  || (c =? 0x2028) || (c =? 0x2029) || (c =? 0x202F)
  || (c =? 0x205F) || (c =? 0x3000).

Fixpoint lstrip (s : pystr) : pystr :=
  match s with
  | [] => []
  | c :: r => if is_space c then lstrip r else s
  end.

Definition rstrip (s : pystr) : pystr := reverse (lstrip (reverse s)).

(** [s.strip()] *)
Definition strip (s : pystr) : pystr := rstrip (lstrip s).

Fixpoint startswith (s p : pystr) {struct p} : bool :=
  match p, s with
  | [], _ => true
  | _ :: _, [] => false
  | a :: p', c :: s' => (c =? a) && startswith s' p'
  end.

(** [s.endswith(p)] *)
Definition endswith (s p : pystr) : bool := startswith (reverse s) (reverse p).

(** [s.split(sep)] for a one-character separator: every occurrence splits,
    and the result always has at least one piece. *)
Fixpoint split (sep : Z) (s : pystr) : list pystr :=
  match s with
  | [] => [[]]
  | c :: r =>
      if c =? sep then [] :: split sep r
      else match split sep r with
           | w :: ws => (c :: w) :: ws
           | [] => [[c]]
           end
  end.

(** [s.split(sep, 1)]: at most one split, at the first occurrence. *)
Fixpoint split1 (sep : Z) (s : pystr) : list pystr :=
  match s with
  | [] => [[]]
  | c :: r =>
      if c =? sep then [[]; r]
      else match split1 sep r with
           | w :: ws => (c :: w) :: ws
           | [] => [[c]]
           end
  end.

(** [sep.join(parts)] *)
Fixpoint join (sep : pystr) (parts : list pystr) : pystr :=
  match parts with
  | [] => []
  | [p] => p
  | p :: ps => p ++ sep ++ join sep ps
  end.

(** [s.replace(old, new)] for a non-empty [old]: one pass from the left,
    occurrences do not overlap and the replacement is not scanned again.
    [skip] counts the characters of a matched occurrence still to drop. *)
Fixpoint replace_from (old new : pystr) (skip : nat) (s : pystr) : pystr :=
  match s with
  | [] => []
  | c :: r =>
      match skip with
      | S k => replace_from old new k r
      | O =>
          if startswith s old
          then new ++ replace_from old new (Nat.pred (length old)) r
          else c :: replace_from old new 0 r
      end
  end.

Definition replace (old new s : pystr) : pystr := replace_from old new 0 s.

(** [s.lower()] on the ASCII letters. The case mappings of the other code
    points never produce one of the letters of ['true'], the only string a
    lowered value is compared with. *)
Definition lower_char (c : Z) : Z :=
  if (65 <=? c) && (c <=? 90) then c + 32 else c.

Definition lower (s : pystr) : pystr := lower_char <$> s.

Definition str_eqb (a b : pystr) : bool := bool_decide (a = b).

(** *** UTF-8 *)

Definition is_cont (b : Z) : bool := (0x80 <=? b) && (b <=? 0xBF).

Definition is_surrogate (c : Z) : bool := (0xD800 <=? c) && (c <=? 0xDFFF).

(** [b.decode('utf-8')]: strict, [None] stands for [UnicodeDecodeError].
    Overlong forms, surrogates and values above U+10FFFF are refused. *)
Fixpoint utf8_decode (b : bytes) : option pystr :=
  match b with
  | [] => Some []
  | b0 :: r0 =>
      if (0 <=? b0) && (b0 <? 0x80) then cons b0 <$> utf8_decode r0
      else if (0xC2 <=? b0) && (b0 <=? 0xDF) then
        match r0 with
        | b1 :: r1 =>
            if is_cont b1
            then cons ((b0 - 0xC0) * 64 + (b1 - 0x80)) <$> utf8_decode r1
            else None
        | _ => None
        end
      else if (0xE0 <=? b0) && (b0 <=? 0xEF) then
        match r0 with
        | b1 :: b2 :: r2 =>
            let c := (b0 - 0xE0) * 4096 + (b1 - 0x80) * 64 + (b2 - 0x80) in
            if is_cont b1 && is_cont b2 && (0x800 <=? c)
               && negb (is_surrogate c)
            then cons c <$> utf8_decode r2
            else None
        | _ => None
        end
      else if (0xF0 <=? b0) && (b0 <=? 0xF4) then
        match r0 with
        | b1 :: b2 :: b3 :: r3 =>
            let c := (b0 - 0xF0) * 262144 + (b1 - 0x80) * 4096
                     + (b2 - 0x80) * 64 + (b3 - 0x80) in
            if is_cont b1 && is_cont b2 && is_cont b3
               && (0x10000 <=? c) && (c <=? 0x10FFFF)
            then cons c <$> utf8_decode r3
            else None
        | _ => None
        end
      else None
  end.

(** The UTF-8 form of one code point; [None] stands for
    [UnicodeEncodeError] (a surrogate) or a value that is no code point. *)
Definition encode_char (c : Z) : option bytes :=
  if (0 <=? c) && (c <? 0x80) then Some [c]
  else if (0x80 <=? c) && (c <? 0x800) then
    Some [0xC0 + c / 64; 0x80 + c mod 64]
  else if (0x800 <=? c) && (c <? 0x10000) then
    if is_surrogate c then None
    else Some [0xE0 + c / 4096; 0x80 + (c / 64) mod 64; 0x80 + c mod 64]
  else if (0x10000 <=? c) && (c <=? 0x10FFFF) then
    Some [0xF0 + c / 262144; 0x80 + (c / 4096) mod 64;
          0x80 + (c / 64) mod 64; 0x80 + c mod 64]
  else None.

(** [s.encode('utf-8')] *)
Fixpoint utf8_encode (s : pystr) : option bytes :=
  match s with
  | [] => Some []
  | c :: r =>
      match encode_char c, utf8_encode r with
      | Some e, Some t => Some (e ++ t)
      | _, _ => None
      end
  end.

(** *** Text files *)

(** Universal newlines of a file opened in text mode: [\r\n] and a lone
    [\r] are read as [\n]. *)
Fixpoint translate_newlines (s : pystr) : pystr :=
  match s with
  | [] => []
  | c :: r =>
      if c =? CR then
        match r with
        | d :: r' =>
            if d =? LF then LF :: translate_newlines r'
            else LF :: translate_newlines r
        | [] => [LF]
        end
      else c :: translate_newlines r
  end.

(** The lines a text file iterates over; each keeps its [\n], the last one
    may lack it. *)
Fixpoint readlines (s : pystr) : list pystr :=
  match s with
  | [] => []
  | c :: r =>
      if c =? LF then [LF] :: readlines r
      else match readlines r with
           | l :: ls => (c :: l) :: ls
           | [] => [[c]]
           end
  end.

End Py.
Export Py.

Arguments py : simpl never.

(** ** Exceptions and results *)

(** The exception classes the program can meet. For a library exception the
    class stands for the whole object: its message text is not modelled,
    and a printed message shows the class name in its place. *)
Inductive exn :=
| FileNotFoundError
| UnicodeDecodeError
| UnicodeEncodeError
| IndexError
| ValueError
| TypeError
| AttributeError
| OSError
| SSHException
| SCPException
| CalledProcessError
| KeyboardInterrupt
| EOFError.

(** [isinstance(e, Exception)]: what [except Exception] catches.
    [KeyboardInterrupt] derives from [BaseException] only. *)
Definition is_Exception (e : exn) : bool :=
  match e with
  | KeyboardInterrupt => false
  | _ => true
  end.

(** [str(e)] inside a printed message. *)
Definition exn_text (e : exn) : pystr :=
  match e with
  | FileNotFoundError => py "FileNotFoundError"
  | UnicodeDecodeError => py "UnicodeDecodeError"
  | UnicodeEncodeError => py "UnicodeEncodeError"
  | IndexError => py "IndexError"
  | ValueError => py "ValueError"
  | TypeError => py "TypeError"
  | AttributeError => py "AttributeError"
  | OSError => py "OSError"
  | SSHException => py "SSHException"
  | SCPException => py "SCPException"
  | CalledProcessError => py "CalledProcessError"
  | KeyboardInterrupt => py "KeyboardInterrupt"
  | EOFError => py "EOFError"
  end.

(** [isinstance(e, ValueError)]: what [except ValueError] catches. The two
    Unicode errors derive from [ValueError]. *)
Definition is_ValueError (e : exn) : bool :=
  match e with
  | ValueError | UnicodeDecodeError | UnicodeEncodeError => true
  | _ => false
  end.

Inductive result (A : Type) : Type :=
| Ok (a : A)
| Raise (e : exn).
Arguments Ok {A} a.
Arguments Raise {A} e.

#[global] Instance result_ret : MRet result := λ A a, Ok a.
#[global] Instance result_bind : MBind result := λ A B f m,
  match m with
  | Ok a => f a
  | Raise e => Raise e
  end.

(** [l[i]]: [IndexError] out of range. *)
Definition index {A} (l : list A) (i : nat) : result A :=
  match l !! i with
  | Some x => Ok x
  | None => Raise IndexError
  end.

(** ** The world the program runs in *)

(** What the program does to its surroundings, in the order it does it. *)
Inductive event :=
| EPrint (msg : pystr)
| EPrintBytes (b : bytes)
| EGetpass (prompt : pystr)
| EConnect (host user : pystr)
| EClose
| EScpPut (local_path : pystr) (content : bytes) (remote_dir : pystr)
| EExec (command : pystr)
| EPopen (argv : list pystr) (redirect : option pystr) (handle : nat)
| EPopenShell (command : pystr) (handle : nat)
| ETerminate (handle : nat)
| ERun (argv : list pystr).

(** The answers of the surroundings: the executable search path, the
    operating system when a process is spawned or a file is opened for
    writing or removed, and the remote host. [None] is success. *)
Record Env := mkEnv {
  which : pystr → option pystr;
  popen_fault : list pystr → option exn;
  popen_shell_fault : pystr → option exn;
  open_write_fault : pystr → option exn;
  subprocess_run_fault : list pystr → option exn;
  remove_fault : pystr → option exn;
  ssh_connect_fault : pystr → pystr → option exn;
  scp_put_fault : pystr → option exn;
  exec_command : pystr → result (bytes * bytes);
}.

(** [paramiko.SSHClient]: [transport] says whether [connect] succeeded. *)
Record SSHClient := mkSSHClient { transport : bool }.

Record SSHModuleManagerObj := mkSSH {
  hostname : pystr;
  username : pystr;
  remote_path : pystr;
  ssh_client : option SSHClient;
}.

(** References to [SSHModuleManager] objects: the engine and the module
    manager may hold the same one. *)
Abbreviation ref := nat (only parsing).

Record ModuleManagerObj := mkMM {
  repo_url : pystr;
  modules_dir : pystr;
  modules : list pystr;
  active_processes : gmap pystr nat;
  ssh_manager : option ref;
  mm_remote_path : pystr;
}.

Record EngineObj := mkEngine {
  repo : pystr;
  engine_ssh_manager : option ref;
  module_manager : ModuleManagerObj;
}.

(** The local files (a path is the string the program opens, a file its
    octets), the events so far, the number of processes spawned so far
    (the next handle), the SSH manager objects and the engine [app]. *)
Record State := mkState {
  fs : gmap pystr bytes;
  trace : list event;
  spawned : nat;
  heap : list SSHModuleManagerObj;
  app : EngineObj;
}.

Definition set_fs (f : gmap pystr bytes → gmap pystr bytes) (st : State) : State :=
  mkState (f (fs st)) (trace st) (spawned st) (heap st) (app st).
Definition set_trace (f : list event → list event) (st : State) : State :=
  mkState (fs st) (f (trace st)) (spawned st) (heap st) (app st).
Definition set_spawned (f : nat → nat) (st : State) : State :=
  mkState (fs st) (trace st) (f (spawned st)) (heap st) (app st).
Definition set_heap (f : list SSHModuleManagerObj → list SSHModuleManagerObj)
    (st : State) : State :=
  mkState (fs st) (trace st) (spawned st) (f (heap st)) (app st).
Definition set_app (f : EngineObj → EngineObj) (st : State) : State :=
  mkState (fs st) (trace st) (spawned st) (heap st) (f (app st)).

Definition set_ssh_client (c : option SSHClient) (o : SSHModuleManagerObj) :
    SSHModuleManagerObj :=
  mkSSH (hostname o) (username o) (remote_path o) c.
Definition set_active_processes (f : gmap pystr nat → gmap pystr nat)
    (m : ModuleManagerObj) : ModuleManagerObj :=
  mkMM (repo_url m) (modules_dir m) (modules m) (f (active_processes m))
       (ssh_manager m) (mm_remote_path m).
Definition set_module_manager (f : ModuleManagerObj → ModuleManagerObj)
    (e : EngineObj) : EngineObj :=
  mkEngine (repo e) (engine_ssh_manager e) (f (module_manager e)).
Definition set_engine_ssh_manager (r : option ref) (e : EngineObj) : EngineObj :=
  mkEngine (repo e) r (module_manager e).

(** ** Computations *)

Definition M (A : Type) : Type := State → result A * State.

Definition ret {A} (a : A) : M A := λ st, (Ok a, st).
Definition raise {A} (e : exn) : M A := λ st, (Raise e, st).
Definition bind {A B} (m : M A) (k : A → M B) : M B := λ st,
  match m st with
  | (Ok a, st') => k a st'
  | (Raise e, st') => (Raise e, st')
  end.
Definition lift {A} (r : result A) : M A := λ st, (r, st).
Definition gets {A} (f : State → A) : M A := λ st, (Ok (f st), st).
Definition modify (f : State → State) : M unit := λ st, (Ok tt, f st).

(** [try: m  except Exception as e: h e] *)
Definition try_except {A} (m : M A) (h : exn → M A) : M A := λ st,
  match m st with
  | (Ok a, st') => (Ok a, st')
  | (Raise e, st') => if is_Exception e then h e st' else (Raise e, st')
  end.

#[global] Instance M_ret : MRet M := @ret.
#[global] Instance M_bind : MBind M := λ A B k m, bind m k.
#[global] Instance M_fmap : FMap M := λ A B f m, bind m (λ a, ret (f a)).

Definition emit (e : event) : M unit := modify (set_trace (λ t, t ++ [e])).

(** [print(msg)] *)
Definition print (msg : pystr) : M unit := emit (EPrint msg).

(** [os.path.join(a, b)] *)
Definition path_join (a b : pystr) : pystr :=
  if startswith b (py "/") then b
  else if bool_decide (a = []) then b
  else if endswith a (py "/") then a ++ b
  else a ++ py "/" ++ b.

(** [os.path.exists(path)] *)
Definition path_exists (path : pystr) : M bool :=
  gets (λ st, bool_decide (is_Some (fs st !! path))).

(** [open(path, 'rb').read()]. The keys of [fs] are the regular files of
    the surroundings, all of them readable; a path that is no key is taken
    not to exist. Directories are not part of the model: a statement about
    a path that may name one says so in a hypothesis. *)
Definition read_bytes (path : pystr) : M bytes := λ st,
  match fs st !! path with
  | Some b => (Ok b, st)
  | None => (Raise FileNotFoundError, st)
  end.

(** The lines of [open(path, 'r')], for the loops that iterate over them:
    the file is decoded as UTF-8 (the locale's encoding) with universal
    newlines. The model decodes the whole file at once. Python yields the
    same lines for a file that is valid UTF-8. For one that is not, it
    decodes 8192 octets at a time and raises when it reads the piece that
    holds the offending octet, which a loop that returns earlier never
    does; a sequence cut short by the end of the file is an error only when
    the end is read. The model and Python agree on such a file when an
    octet that starts no sequence follows text that decodes, within the
    first 8192 octets: statements about files that do not decode are made
    under that hypothesis. Paths are not normalised: two spellings of one
    path are two keys, and a statement about two paths takes them to be in
    normal form. *)
Definition read_lines (path : pystr) : M (list pystr) :=
  b ← read_bytes path;
  match utf8_decode b with
  | Some s => ret (readlines (translate_newlines s))
  | None => raise UnicodeDecodeError
  end.

(** [open(path, mode)] for writing: ['w'] and ['wb'] empty the file, ['a']
    keeps it; all create it when missing. *)
Definition open_write (env : Env) (path : pystr) (truncate : bool) : M unit :=
  match open_write_fault env path with
  | Some e => raise e
  | None =>
      modify (set_fs (λ f,
        if truncate then <[path := []]> f
        else match f !! path with
             | Some _ => f
             | None => <[path := []]> f
             end))
  end.

(** [file.write(data)] on a file just opened by [open_write]. *)
Definition write_bytes (path : pystr) (data : bytes) : M unit :=
  modify (set_fs (λ f, <[path := default [] (f !! path) ++ data]> f)).

(** [b.decode('utf-8')] and [s.encode('utf-8')] as statements. *)
Definition decode (b : bytes) : M pystr :=
  match utf8_decode b with
  | Some s => ret s
  | None => raise UnicodeDecodeError
  end.

Definition encode (s : pystr) : M bytes :=
  match utf8_encode s with
  | Some b => ret b
  | None => raise UnicodeEncodeError
  end.

(** Truth value of a value that is [None] or a string. *)
Definition truthy (o : option pystr) : bool :=
  match o with
  | Some (_ :: _) => true
  | _ => false
  end.

(** [f"{o}"] for a value that is [None] or a string. *)
Definition fmt (o : option pystr) : pystr := default (py "None") o.

(** [a, b = l] *)
Definition unpack2 (l : list pystr) : result (pystr * pystr) :=
  match l with
  | [a; b] => Ok (a, b)
  | _ => Raise ValueError
  end.

(** ** class SSHModuleManager *)

Module SSHModuleManager.
Section methods.
Context (env : Env).

(** [self], as the object the reference denotes. *)
Definition deref (self : ref) : M SSHModuleManagerObj := λ st,
  match heap st !! self with
  | Some o => (Ok o, st)
  | None => (Raise AttributeError, st)
  end.

Definition update (self : ref) (f : SSHModuleManagerObj → SSHModuleManagerObj) :
    M unit :=
  modify (set_heap (alter f self)).

(** [SSHModuleManager(hostname, username, remote_path)] *)
Definition new (hostname username remote_path : pystr) : M ref := λ st,
  (Ok (length (heap st)),
   set_heap (λ h, h ++ [mkSSH hostname username remote_path None]) st).

Definition connect (self : ref) : M unit :=
  o ← deref self;
  (match ssh_client o with
   | None => update self (set_ssh_client (Some (mkSSHClient false)))
   | Some _ => ret tt
   end);;
  emit (EGetpass (py "Enter password for " ++ username o ++ py "@"
                  ++ hostname o ++ py ": "));;
  emit (EConnect (hostname o) (username o));;
  match ssh_connect_fault env (hostname o) (username o) with
  | Some e => raise e
  | None => update self (set_ssh_client (Some (mkSSHClient true)))
  end.

Definition disconnect (self : ref) : M unit :=
  o ← deref self;
  match ssh_client o with
  | Some _ => emit EClose;; update self (set_ssh_client None)
  | None => ret tt
  end.

Definition convert_line_endings_to_unix (file_path : pystr) : M unit :=
  try_except
    (b ← read_bytes file_path;
     content ← decode b;
     let content := replace [CR; LF] [LF] content in
     open_write env file_path true;;
     data ← encode content;
     write_bytes file_path data)
    (λ e, print (py "Error converting line endings: " ++ exn_text e)).

(** [self.ssh_client.get_transport()], and the use of what it returns: no
    client object, or a client that never connected, is an
    [AttributeError]. *)
Definition get_transport (o : SSHModuleManagerObj) : M unit :=
  match ssh_client o with
  | Some c => if transport c then ret tt else raise AttributeError
  | None => raise AttributeError
  end.

(** [scp.put(local_path, remote_dir)] *)
Definition scp_put (local_path remote_dir : pystr) : M unit :=
  match scp_put_fault env local_path with
  | Some e => raise e
  | None =>
      b ← read_bytes local_path;
      emit (EScpPut local_path b remote_dir)
  end.

Definition transfer_file (self : ref) (local_path : pystr) : M unit :=
  found ← path_exists local_path;
  if negb found then print (py "File not found: " ++ local_path)
  else
    convert_line_endings_to_unix local_path;;
    try_except
      (o ← deref self;
       get_transport o;;
       scp_put local_path (remote_path o);;
       print (py "File transferred successfully: " ++ local_path))
      (λ e, print (py "Error transferring file: " ++ exn_text e)).

(** [self.ssh_client.exec_command(command)] with both streams read. *)
Definition ssh_exec (o : SSHModuleManagerObj) (command : pystr) :
    M (bytes * bytes) :=
  get_transport o;;
  emit (EExec command);;
  lift (exec_command env command).

(** [stdout_output + ("\n" + stderr_output if stderr_output else "")] *)
Definition combined_output (stdout_output stderr_output : pystr) : pystr :=
  stdout_output
  ++ (if truthy (Some stderr_output) then [LF] ++ stderr_output else []).

(** The command line of [run_remote_script]: the interpreter is chosen by
    the extension, any other extension is a [ValueError]. *)
Definition remote_command (o : SSHModuleManagerObj) (script_name : pystr)
    (args : list pystr) : result pystr :=
  if endswith script_name (py ".sh") then
    Ok (py "bash " ++ remote_path o ++ py "/" ++ script_name ++ py " "
        ++ join (py " ") args)
  else if endswith script_name (py ".py") then
    Ok (py "python3 " ++ remote_path o ++ py "/" ++ script_name ++ py " "
        ++ join (py " ") args)
  else Raise ValueError.

Definition run_remote_script (self : ref) (script_name : pystr)
    (args : list pystr) : M pystr :=
  o ← deref self;
  command ← lift (remote_command o script_name args);
  '(out, err) ← ssh_exec o command;
  stdout_output ← strip <$> decode out;
  stderr_output ← strip <$> decode err;
  ret (combined_output stdout_output stderr_output).

End methods.
End SSHModuleManager.

(** ** class ModuleManager *)

Module ModuleManager.

Definition COLON : Z := 58.
Definition COMMA : Z := 44.

(** The loop bodies of the descriptor parsers, over the lines of the file. *)
Fixpoint parse_follow_log_flag_in (lines : list pystr) : result bool :=
  match lines with
  | [] => Ok false
  | line :: rest =>
      if startswith line (py "# Follow_log:") then
        field ← index (split COLON (strip line)) 1;
        Ok (str_eqb (lower (strip field)) (py "true"))
      else parse_follow_log_flag_in rest
  end.

Fixpoint parse_dependencies_in (lines : list pystr) : result (list pystr) :=
  match lines with
  | [] => Ok []
  | line :: rest =>
      if startswith line (py "# Dependencies:") then
        field ← index (split COLON (strip line)) 1;
        Ok (strip <$> split COMMA field)
      else parse_dependencies_in rest
  end.

Fixpoint parse_silent_flag_in (lines : list pystr) : result bool :=
  match lines with
  | [] => Ok false
  | line :: rest =>
      if startswith line (py "# Silent:") then
        field ← index (split COLON (strip line)) 1;
        Ok (str_eqb (lower (strip field)) (py "true"))
      else parse_silent_flag_in rest
  end.

Fixpoint parse_logfile_path_in (lines : list pystr) : result (option pystr) :=
  match lines with
  | [] => Ok None
  | line :: rest =>
      if startswith line (py "# Logfile:") then
        field ← index (split COLON (strip line)) 1;
        Ok (Some (strip field))
      else parse_logfile_path_in rest
  end.

Fixpoint parse_inputs_in (lines : list pystr) : result (list pystr) :=
  match lines with
  | [] => Ok (strip <$> [])
  | line :: rest =>
      if startswith line (py "# Inputs:") then
        field ← index (split COLON (strip line)) 1;
        Ok (strip <$> split COMMA field)
      else parse_inputs_in rest
  end.

Definition HYPHEN : Z := 45.

(** The loop of [parse_help_info], from the entries collected so far. *)
Fixpoint parse_help_info_in (lines : list pystr)
    (help_info : gmap pystr pystr) : result (gmap pystr pystr) :=
  match lines with
  | [] => Ok help_info
  | line :: rest =>
      if startswith line (py "# Help:") then
        '(_, info) ← unpack2 (split1 COLON line);
        let parts := split1 HYPHEN info in
        if bool_decide (length parts = 2%nat) then
          '(key, desc) ← unpack2 parts;
          parse_help_info_in rest (<[strip key := strip desc]> help_info)
        else
          part ← index parts 0;
          parse_help_info_in rest
            (<[strip part := py "No description available"]> help_info)
      else parse_help_info_in rest help_info
  end.

Section methods.
Context (env : Env).

(** [ModuleManager(repo_url, ssh_manager)] *)
Definition new (repo_url : pystr) (ssh_manager : option ref) : ModuleManagerObj :=
  mkMM repo_url (py "modules") [] ∅ ssh_manager (py "/tmp").

(** [self]: the module manager the engine holds. *)
Definition self : M ModuleManagerObj := gets (λ st, module_manager (app st)).

Definition update_self (f : ModuleManagerObj → ModuleManagerObj) : M unit :=
  modify (set_app (set_module_manager f)).

Definition is_dependency_installed (dependency : pystr) : bool :=
  bool_decide (is_Some (which env dependency)).

Definition parse_follow_log_flag (module_path : pystr) : M bool :=
  lines ← read_lines module_path; lift (parse_follow_log_flag_in lines).

Definition parse_dependencies (module_path : pystr) : M (list pystr) :=
  lines ← read_lines module_path; lift (parse_dependencies_in lines).

Definition parse_silent_flag (module_path : pystr) : M bool :=
  lines ← read_lines module_path; lift (parse_silent_flag_in lines).

Definition parse_logfile_path (module_path : pystr) : M (option pystr) :=
  lines ← read_lines module_path; lift (parse_logfile_path_in lines).

Definition parse_inputs (module_path : pystr) : M (list pystr) :=
  lines ← read_lines module_path; lift (parse_inputs_in lines).

Definition parse_help_info (module_path : pystr) : M (gmap pystr pystr) :=
  lines ← read_lines module_path; lift (parse_help_info_in lines ∅).

(** [subprocess.run(argv, check=True)] *)
Definition subprocess_run (argv : list pystr) : M unit :=
  emit (ERun argv);;
  match subprocess_run_fault env argv with
  | Some e => raise e
  | None => ret tt
  end.

(** [subprocess.Popen(argv)], with both output streams sent to the open
    file [redirect] when there is one; the result is the new handle. The
    child runs on its own: what it writes, to [redirect] or to any other
    file, is not part of the model, and the statements about the contents
    of files are about files no child is given. *)
Definition popen (argv : list pystr) (redirect : option pystr) : M nat :=
  match popen_fault env argv with
  | Some e => raise e
  | None =>
      h ← gets spawned;
      modify (set_spawned S);;
      emit (EPopen argv redirect h);;
      ret h
  end.

(** [subprocess.Popen(command, shell=True)] *)
Definition popen_shell (command : pystr) : M nat :=
  match popen_shell_fault env command with
  | Some e => raise e
  | None =>
      h ← gets spawned;
      modify (set_spawned S);;
      emit (EPopenShell command h);;
      ret h
  end.

(** [with open(path, 'w') as f: f.write(text)] for a [path] that is [None]
    or a string. The file is the key [path] of [fs] as it is spelled:
    another spelling of the same file is another key, and a statement about
    the files at two paths takes the paths to be [apart]. *)
Definition write_text (path : option pystr) (text : pystr) : M unit :=
  match path with
  | None => raise TypeError
  | Some [] => raise FileNotFoundError
  | Some p =>
      open_write env p true;;
      data ← encode text;
      write_bytes p data
  end.

Fixpoint install_dependencies (dependencies : list pystr) : M unit :=
  match dependencies with
  | [] => ret tt
  | dep :: rest =>
      me ← self;
      (match ssh_manager me with
       | Some ssh =>
           let install_command := py "sudo apt install -y " ++ dep in
           print (py "Installing dependency on remote machine: " ++ dep);;
           o ← SSHModuleManager.deref ssh;
           '(out, err) ← SSHModuleManager.ssh_exec env o install_command;
           emit (EPrintBytes (out ++ err))
       | None =>
           if negb (is_dependency_installed dep) then
             print (py "Installing dependency: " ++ dep);;
             subprocess_run [py "sudo"; py "apt"; py "install"; py "-y"; dep]
           else
             print (py "Dependency '" ++ dep ++ py "' is already installed.")
       end);;
      install_dependencies rest
  end.

(** The interpreter-prefixed local command, [None] for an unsupported
    extension. *)
Definition local_command (module_path : pystr) (args : list pystr) :
    option (list pystr) :=
  if endswith module_path (py ".sh") then
    Some ([py "bash"; module_path] ++ args)
  else if endswith module_path (py ".py") then
    Some ([py "python3"; module_path] ++ args)
  else None.

Definition launch_module (module_name : pystr) (args : list pystr) : M bool :=
  me ← self;
  let module_path := path_join (modules_dir me) module_name in
  found ← path_exists module_path;
  if negb found then
    print (py "Module " ++ module_name ++ py " not found.");;
    ret false
  else
    is_silent ← parse_silent_flag module_path;
    logfile_path ← parse_logfile_path module_path;
    match local_command module_path args with
    | None =>
        print (py "Unsupported module type: " ++ module_name);;
        ret false
    | Some command =>
        match ssh_manager me with
        | Some ssh =>
            SSHModuleManager.transfer_file env ssh module_path;;
            SSHModuleManager.transfer_file env ssh module_path;;
            output ← SSHModuleManager.run_remote_script env ssh module_name args;
            print (py "Saving results to " ++ fmt logfile_path);;
            write_text logfile_path output;;
            ret true
        | None =>
            process ←
              (if is_silent && truthy logfile_path
                  && bool_decide (is_Some logfile_path)
               then
                 open_write env (default [] logfile_path) false;;
                 popen command logfile_path
               else popen command None);
            update_self (set_active_processes <[module_name := process]>);;
            print (py "Module " ++ module_name ++ py " launched.");;
            (if is_silent && truthy logfile_path
             then print (py "Logging output to " ++ fmt logfile_path)
             else ret tt);;
            follow_log ← parse_follow_log_flag module_path;
            (if follow_log && truthy logfile_path then
               popen_shell (py "tmux new-window 'tail -f " ++ fmt logfile_path
                            ++ py "'");;
               print (py "Following log in new tmux window: "
                      ++ fmt logfile_path)
             else ret tt);;
            ret true
        end
    end.

Definition stop_module (module_name : pystr) : M unit :=
  me ← self;
  match active_processes me !! module_name with
  | Some process =>
      emit (ETerminate process);;
      print (py "Module " ++ module_name ++ py " stopped.");;
      update_self (set_active_processes (delete module_name))
  | None =>
      print (py "No running module named " ++ module_name ++ py ".")
  end.

Definition remove_module (module_name : pystr) : M bool :=
  me ← self;
  let module_path := path_join (modules_dir me) module_name in
  found ← path_exists module_path;
  if (found : bool) then
    (match remove_fault env module_path with
     | Some e => raise e
     | None => modify (set_fs (delete module_path))
     end);;
    print (py "Module " ++ module_name ++ py " has been removed.");;
    ret true
  else
    print (py "Module " ++ module_name ++ py " not found.");;
    ret false.

End methods.
End ModuleManager.

(** ** class Engine *)

Module Engine.

Definition REPO : pystr :=
  py "https://api.github.com/repos/mavedirra-01/pi-turtle/contents/modules".

(** [Engine()] *)
Definition new : EngineObj := mkEngine REPO None (ModuleManager.new REPO None).

(** The program at start, over the files found on disk. *)
Definition initial (files : gmap pystr bytes) : State :=
  mkState files [] 0 [] new.



(** [try: m  except ValueError: h] *)
Definition try_except_ValueError {A} (m : M A) (h : M A) : M A := λ st,
  match m st with
  | (Raise e, st') => if is_ValueError e then h st' else (Raise e, st')
  | r => r
  end.

Section methods.
Context (env : Env).

Definition handle_ssh_connect (command : pystr) : M unit :=
  try_except_ValueError
    ('(_, user_host) ← lift (unpack2 (split1 32 command));
     '(username, hostname) ← lift (unpack2 (split1 64 user_host));
     let remote_path := py "/tmp/" in
     ssh ← SSHModuleManager.new hostname username remote_path;
     modify (set_app (set_engine_ssh_manager (Some ssh)));;
     SSHModuleManager.connect env ssh;;
     print (py "Connected to " ++ hostname ++ py " as " ++ username);;
     e ← gets app;
     modify (set_app (set_module_manager (λ _,
       ModuleManager.new (repo e) (engine_ssh_manager e)))))
    (print (py "Invalid command format. Use 'connect user@hostname'.")).

Definition handle_ssh_disconnect : M unit :=
  e ← gets app;
  match engine_ssh_manager e with
  | Some ssh =>
      SSHModuleManager.disconnect ssh;;
      modify (set_app (set_engine_ssh_manager None));;
      print (py "Disconnected from SSH session.")
  | None => print (py "No active SSH session to disconnect.")
  end.

(** [try: m  except FileNotFoundError: h] *)
Definition try_except_FileNotFoundError {A} (m : M A) (h : M A) : M A := λ st,
  match m st with
  | (Raise FileNotFoundError, st') => h st'
  | r => r
  end.

(** [open(path, 'r').read()] *)
Definition read_text (path : pystr) : M pystr :=
  b ← read_bytes path;
  s ← decode b;
  ret (translate_newlines s).

Definition read_log (log_file : pystr) : M unit :=
  let log_dir := path_join (py "logs") log_file in
  try_except_FileNotFoundError
    (content ← read_text log_dir; print content)
    (print (py "Log file " ++ log_file ++ py " not found.")).

(** The toolbar's test [app.ssh_manager and app.ssh_manager.ssh_client]:
    whether a remote session is shown as connected. *)
Definition connected (st : State) : bool :=
  match engine_ssh_manager (app st) with
  | Some ssh =>
      match heap st !! ssh with
      | Some o => bool_decide (is_Some (ssh_client o))
      | None => false
      end
  | None => false
  end.



End methods.
End Engine.

(** ** Vocabulary of the statements *)

(** The text with every carriage return that stands immediately before a
    line feed removed: what "normalised line endings" means, said without
    [replace]. *)
Fixpoint unix_endings (s : list Z) : list Z :=
  match s with
  | [] => []
  | c :: r =>
      if (c =? CR) && bool_decide (head r = Some LF) then unix_endings r
      else c :: unix_endings r
  end.

(** [pat] occurs in [s] as a block of consecutive elements. *)
Definition contains (pat s : list Z) : Prop :=
  ∃ pre post, s = pre ++ pat ++ post.

Fixpoint has_infix (pat s : list Z) : bool :=
  startswith s pat ||
  match s with
  | [] => false
  | _ :: r => has_infix pat r
  end.

(** What a text-mode read of [path] yields, as a function of the files. *)
Definition source_lines (files : gmap pystr bytes) (path : pystr) :
    result (list pystr) :=
  match files !! path with
  | Some b =>
      match utf8_decode b with
      | Some s => Ok (readlines (translate_newlines s))
      | None => Raise UnicodeDecodeError
      end
  | None => Raise FileNotFoundError
  end.

Definition is_terminate (e : event) : bool :=
  match e with
  | ETerminate _ => true
  | _ => false
  end.

(** [st'] comes after [st] by events none of which is a termination
    request. *)
Definition quietly_after (st st' : State) : Prop :=
  ∃ evs, trace st' = trace st ++ evs
         ∧ forallb (λ e, negb (is_terminate e)) evs = true.

(** The files after the line-ending normalisation of [path]. *)
Definition normalised (env : Env) (path : pystr) (files : gmap pystr bytes) :
    gmap pystr bytes :=
  match files !! path with
  | Some b =>
      match utf8_decode b, open_write_fault env path with
      | Some _, None => <[path := unix_endings b]> files
      | _, _ => files
      end
  | None => files
  end.

(** A step that leaves the engine, the SSH objects and the process count
    alone and sends no termination request. *)
Definition frame (st st' : State) : Prop :=
  app st' = app st ∧ heap st' = heap st ∧ spawned st' = spawned st
  ∧ quietly_after st st'.

(** Surroundings in which no process fails to start and no file fails to
    open for writing. *)
Definition spawns_and_opens (env : Env) : Prop :=
  (∀ argv, popen_fault env argv = None)
  ∧ (∀ command, popen_shell_fault env command = None)
  ∧ (∀ path, open_write_fault env path = None).

(** The installer's attempt to install [dep]: the local package command,
    or the remote one. *)
Definition install_attempt (dep : pystr) (e : event) : Prop :=
  e = ERun [py "sudo"; py "apt"; py "install"; py "-y"; dep]
  ∨ e = EExec (py "sudo apt install -y " ++ dep).

(** The commands run on the remote shell, and the argument lists run as
    local commands, among some events. *)
Definition exec_commands (evs : list event) : list pystr :=
  omap (λ e, match e with EExec c => Some c | _ => None end) evs.

Definition run_commands (evs : list event) : list (list pystr) :=
  omap (λ e, match e with ERun argv => Some argv | _ => None end) evs.

(** The files uploaded, with the octets sent, among some events. *)
Definition uploads (evs : list event) : list (pystr * bytes) :=
  omap (λ e, match e with EScpPut p c _ => Some (p, c) | _ => None end) evs.

Definition SLASH : Z := 47.

(** A relative path in normal form: its components are non-empty and none
    of them is [.] or [..]. *)
Definition simple_path (p : pystr) : bool :=
  forallb (λ c, negb (bool_decide (c = [])) && negb (bool_decide (c = py "."))
                && negb (bool_decide (c = py "..")))
          (split SLASH p).

(** Two paths that name two files, whatever the working directory: both
    are relative and in normal form, and they differ. (Links between files
    are not part of the model.) *)
Definition apart (p q : pystr) : Prop :=
  simple_path p = true ∧ simple_path q = true ∧ p ≠ q.

(** The number of octets Python decodes at a time when it reads a text
    file ([TextIOWrapper._CHUNK_SIZE]). *)
Definition CHUNK_SIZE : Z := 8192.

(** An octet that no UTF-8 text holds at the start of a sequence: a
    continuation octet, the two lead octets of overlong forms, and the
    values from 245 on. *)
Definition never_starts (x : Z) : bool :=
  ((0x80 <=? x) && (x <=? 0xC1)) || (0xF5 <=? x).





(** [m], run from [st], ends with a result and in a state that satisfy
    [Q]. *)
Definition wp {A} (m : M A) (st : State) (Q : result A → State → Prop) : Prop :=
  Q (m st).1 (m st).2.

(** ** Sample surroundings and files *)

Module Sample.

(** Surroundings where nothing fails, no executable is found on the search
    path, and every remote command prints [out] on stdout and [err] on
    stderr. *)
Definition remote (out err : bytes) : Env :=
  mkEnv (λ _, None) (λ _, None) (λ _, None) (λ _, None) (λ _, None)
        (λ _, None) (λ _ _, None) (λ _, None) (λ _, Ok (out, err)).

Definition quiet (out : bytes) : Env := remote out [].

Definition m_sh : pystr := py "modules/m.sh".

(** A shell module that declares a log file and has a DOS line ending. *)
Definition dos_source : bytes :=
  py "# Logfile: logs/a:b.log" ++ [CR; LF] ++ py "echo hi" ++ [LF].

Definition with_logfile : gmap pystr bytes := {[ m_sh := dos_source ]}.

(** A shell module whose dependencies marker is followed by nothing. *)
Definition no_dependencies_source : bytes :=
  py "# Dependencies:" ++ [LF] ++ py "echo hi" ++ [LF].

Definition with_empty_dependencies : gmap pystr bytes :=
  {[ m_sh := no_dependencies_source ]}.

(** A shell module without any marker line. *)
Definition plain : gmap pystr bytes :=
  {[ m_sh := py "echo hi" ++ [LF] ]}.

(** The state after [connect u@h] succeeded, and after a [disconnect]
    that follows it. *)
Definition connected_state (out : bytes) (files : gmap pystr bytes) : State :=
  (Engine.handle_ssh_connect (quiet out) (py "connect u@h")
     (Engine.initial files)).2.

Definition disconnected_state (out : bytes) (files : gmap pystr bytes) : State :=
  (Engine.handle_ssh_disconnect (connected_state out files)).2.

(** A shell module that declares a log file and has no DOS line ending. *)
Definition unix_source : bytes :=
  py "# Logfile: logs/a.log" ++ [LF] ++ py "echo hi" ++ [LF].

Definition with_unix_logfile : gmap pystr bytes := {[ m_sh := unix_source ]}.

(** A shell module that asks for its output to go to a log file. *)
Definition silent_source : bytes :=
  py "# Silent: true" ++ [LF] ++ py "# Logfile: out.log" ++ [LF].

Definition silent : gmap pystr bytes := {[ m_sh := silent_source ]}.

(** A local machine with the executables [on_path] on the search path, on
    which the package command fails for the packages [unavailable]. *)
Definition local (on_path unavailable : list pystr) : Env :=
  mkEnv (λ d, if bool_decide (d ∈ on_path) then Some (py "/usr/bin/" ++ d)
              else None)
        (λ _, None) (λ _, None) (λ _, None)
        (λ argv, match last argv with
                 | Some d => if bool_decide (d ∈ unavailable)
                             then Some CalledProcessError else None
                 | None => None
                 end)
        (λ _, None) (λ _ _, None) (λ _, None) (λ _, Ok ([], [])).

(** Surroundings in which every copy to the remote host fails. *)
Definition no_copy : Env :=
  mkEnv (λ _, None) (λ _, None) (λ _, None) (λ _, None) (λ _, None)
        (λ _, None) (λ _ _, None) (λ _, Some SCPException)
        (λ _, Ok ([], [])).


(** Surroundings in which the remote host refuses every connection. *)
Definition refusing : Env :=
  mkEnv (λ _, None) (λ _, None) (λ _, None) (λ _, None) (λ _, None)
        (λ _, None) (λ _ _, Some SSHException) (λ _, None)
        (λ _, Ok ([], [])).

End Sample.

(** * Properties *)

Abbreviation manager st := (module_manager (app st)).
Abbreviation table st := (active_processes (module_manager (app st))).

Ltac munfold :=
  unfold print, path_exists, decode, encode in *; unfold emit in *;
  unfold mbind, M_bind, mret, M_ret, fmap, M_fmap in *;
  unfold bind, ret, raise, lift, gets, modify in *.

(** ** Strings *)

Lemma lstrip_split s :
  ∃ ws, s = ws ++ lstrip s ∧ forallb is_space ws = true.
Proof.
  induction s as [|c r [ws [E F]]]; simpl.
  - by exists [].
  - destruct (is_space c) eqn:Hc.
    + exists (c :: ws). simpl. rewrite Hc, F. split; [congruence | done].
    + by exists [].
Qed.

Lemma lstrip_head s c r : lstrip s = c :: r → is_space c = false.
Proof.
  induction s as [|d t IH]; simpl; [done|].
  destruct (is_space d) eqn:Hd; [done|]. intros [= -> ->]. done.
Qed.

Lemma lstrip_nonspace c t : is_space c = false → lstrip (c :: t) = c :: t.
Proof. intros H. simpl. by rewrite H. Qed.

Lemma lstrip_spaces s : forallb is_space s = true → lstrip s = [].
Proof.
  induction s as [|d r IH]; simpl; [done|].
  intros [Hd Hr]%andb_prop. rewrite Hd. auto.
Qed.

Lemma rstrip_snoc s c :
  rstrip (s ++ [c]) = if is_space c then rstrip s else s ++ [c].
Proof.
  unfold rstrip. rewrite reverse_snoc. simpl.
  destruct (is_space c); [done|]. by rewrite reverse_cons, reverse_involutive.
Qed.

Lemma rstrip_app_spaces s ws :
  forallb is_space ws = true → rstrip (s ++ ws) = rstrip s.
Proof.
  revert s. induction ws as [|w ws IH] using rev_ind; intros s H.
  - by rewrite app_nil_r.
  - rewrite forallb_app in H. apply andb_prop in H as [H1 H2]. simpl in H2.
    rewrite app_assoc, rstrip_snoc.
    destruct (is_space w); [auto | done].
Qed.

Lemma rstrip_split s :
  ∃ ws, s = rstrip s ++ ws ∧ forallb is_space ws = true.
Proof.
  unfold rstrip. destruct (lstrip_split (reverse s)) as [ws [E F]].
  exists (reverse ws). split.
  - rewrite <- reverse_app, <- E. by rewrite reverse_involutive.
  - rewrite forallb_forall in *. intros x Hx. apply F.
    apply list_elem_of_In. apply list_elem_of_In in Hx.
    by apply elem_of_reverse.
Qed.

Lemma rstrip_last s c : last (rstrip s) = Some c → is_space c = false.
Proof.
  unfold rstrip. rewrite last_reverse.
  destruct (lstrip (reverse s)) eqn:E; simpl; [done|]. intros [= ->].
  eapply lstrip_head; eauto.
Qed.

(** A stripped string neither starts nor ends with white space. *)
Lemma strip_head s c : head (strip s) = Some c → is_space c = false.
Proof.
  unfold strip. destruct (rstrip_split (lstrip s)) as [ws [E F]].
  destruct (rstrip (lstrip s)) as [|d r] eqn:R; simpl; [done|].
  intros [= ->]. simpl in E. eapply lstrip_head; eauto.
Qed.

Lemma strip_last s c : last (strip s) = Some c → is_space c = false.
Proof. apply rstrip_last. Qed.

Lemma strip_spaces s : forallb is_space s = true → strip s = [].
Proof. intros H. unfold strip. by rewrite lstrip_spaces. Qed.

(** ** Line endings *)

Lemma replace_crlf_step c r :
  replace_from [CR; LF] [LF] 0 (c :: r) =
  if (c =? CR) && bool_decide (head r = Some LF)
  then LF :: replace_from [CR; LF] [LF] 1 r
  else c :: replace_from [CR; LF] [LF] 0 r.
Proof.
  simpl. destruct r as [|d r']; simpl.
  - by rewrite andb_false_r.
  - rewrite andb_true_r. destruct (Z.eqb_spec d LF) as [->|Hd].
    + by rewrite bool_decide_eq_true_2.
    + rewrite bool_decide_eq_false_2; [done | congruence].
Qed.

Lemma replace_crlf s : replace [CR; LF] [LF] s = unix_endings s.
Proof.
  unfold replace. induction s as [|c r IH]; [done|].
  rewrite replace_crlf_step. cbn [unix_endings].
  destruct (_ && _) eqn:E; [|by rewrite IH].
  apply andb_prop in E as [_ E]. apply bool_decide_eq_true in E.
  destruct r as [|d r']; [done|]. injection E as ->.
  rewrite <- IH, replace_crlf_step. done.
Qed.

Lemma startswith_app s p : startswith s p = true ↔ ∃ r, s = p ++ r.
Proof.
  revert s. induction p as [|a p IH]; intros s; simpl.
  - split; [eauto|done].
  - destruct s as [|c s]; simpl.
    + split; [done|]. intros [r [=]].
    + rewrite andb_true_iff, Z.eqb_eq, IH. split.
      * intros [-> [r ->]]. eauto.
      * intros [r [= -> ->]]. eauto.
Qed.

Lemma has_infix_contains pat s : has_infix pat s = true ↔ contains pat s.
Proof.
  unfold contains. induction s as [|c s IH]; simpl.
  - rewrite orb_false_r, startswith_app. split.
    + intros [r E]. exists [], r. done.
    + intros [pre [post E]]. destruct pre; simpl in E; [eauto|done].
  - rewrite orb_true_iff, startswith_app, IH. split.
    + intros [[r E]|[pre [post E]]].
      * exists [], r. done.
      * exists (c :: pre), post. simpl. congruence.
    + intros [[|x pre] [post E]]; simpl in E.
      * left. eauto.
      * right. injection E as -> ->. eauto.
Qed.

Lemma has_infix_false pat s : has_infix pat s = false ↔ ¬ contains pat s.
Proof. rewrite <- has_infix_contains. by destruct (has_infix pat s). Qed.

Lemma unix_endings_head s :
  head (unix_endings s) = Some LF ↔
  head s = Some LF ∨ ∃ r, s = CR :: LF :: r.
Proof.
  destruct s as [|c r]; simpl.
  - split; [done|]. intros [|[? ?]]; done.
  - destruct (Z.eqb_spec c CR) as [->|Hc]; simpl.
    + destruct r as [|d r']; simpl.
      * split; [done|]. intros [[=]|[? [=]]].
      * case_bool_decide as Hd; simpl.
        -- injection Hd as ->. change (LF =? CR) with false. simpl.
           split; [eauto|done].
        -- split; [done|]. intros [[=]|[? [= -> ->]]]. done.
    + split.
      * intros [= ->]. by left.
      * intros [[= ->]|[? [= -> ->]]]; done.
Qed.

Lemma unix_endings_crlf s :
  has_infix [CR; LF] (unix_endings s) = has_infix [CR; CR; LF] s.
Proof.
  induction s as [|c r IH]; [done|].
  cbn [unix_endings].
  destruct (Z.eqb_spec c CR) as [->|Hc]; cbn [andb].
  - case_bool_decide as Hd.
    + destruct r as [|d r']; [done|]. injection Hd as ->.
      rewrite IH. simpl. done.
    + cbn [has_infix]. rewrite IH. f_equal.
      apply eq_true_iff_eq. rewrite !startswith_app. split.
      * intros [t E]. simpl in E. injection E as E.
        assert (head (unix_endings r) = Some LF) as Hh by (by rewrite E).
        apply unix_endings_head in Hh as [Hh|[t' ->]]; [done|]. eauto.
      * intros [t E]. simpl in E. injection E as ->. simpl.
        change (LF =? CR) with false. simpl. eauto.
  - cbn [has_infix]. rewrite IH. f_equal.
    simpl. destruct (Z.eqb_spec c CR); done.
Qed.

Lemma unix_endings_sublist s : sublist (unix_endings s) s.
Proof.
  induction s as [|c r IH]; simpl; [done|].
  destruct (_ && _); by constructor.
Qed.

Lemma unix_endings_keeps s :
  filter (λ x, x ≠ CR) (unix_endings s) = filter (λ x, x ≠ CR) s.
Proof.
  induction s as [|c r IH]; simpl; [done|].
  destruct (Z.eqb_spec c CR) as [->|Hc]; simpl.
  - case_bool_decide; simpl.
    + rewrite filter_cons_False by (intros H'; by apply H'). done.
    + rewrite !filter_cons_False by (intros H'; by apply H'). done.
  - rewrite !filter_cons_True by done. by rewrite IH.
Qed.

Lemma unix_endings_id s : has_infix [CR; LF] s = false → unix_endings s = s.
Proof.
  induction s as [|c r IH]; [done|]. cbn [has_infix unix_endings].
  intros [H1 H2]%orb_false_elim. rewrite IH by done.
  destruct (Z.eqb_spec c CR) as [->|Hc]; [|done]. cbn [andb].
  case_bool_decide as Hd; [|done].
  destruct r as [|d r']; [done|]. injection Hd as ->. done.
Qed.

(** ** UTF-8 *)

Ltac bools :=
  repeat match goal with
  | H : _ && _ = true |- _ => apply andb_prop in H as [? ?]
  | H : negb _ = true |- _ => apply negb_true_iff in H
  | H : _ && _ = false |- _ => apply andb_false_iff in H
  | H : (_ <=? _) = true |- _ => apply Z.leb_le in H
  | H : (_ <? _) = true |- _ => apply Z.ltb_lt in H
  | H : (_ <=? _) = false |- _ => apply Z.leb_gt in H
  | H : (_ <? _) = false |- _ => apply Z.ltb_ge in H
  end.

Lemma encode_char_2 b0 b1 :
  0xC2 <= b0 <= 0xDF → is_cont b1 = true →
  encode_char ((b0 - 0xC0) * 64 + (b1 - 0x80)) = Some [b0; b1].
Proof.
  unfold is_cont. intros ? ?. bools.
  set (c := (b0 - 0xC0) * 64 + (b1 - 0x80)).
  assert (c / 64 = b0 - 0xC0) as Hd
    by (symmetry; apply Z.div_unique with (b1 - 0x80); lia).
  assert (c mod 64 = b1 - 0x80) as Hm
    by (symmetry; apply Z.mod_unique with (b0 - 0xC0); lia).
  unfold encode_char.
  destruct (Z.ltb_spec c 0x80); [lia|]. rewrite andb_false_r.
  destruct (Z.leb_spec 0x80 c); [|lia].
  destruct (Z.ltb_spec c 0x800); [|lia]. simpl.
  rewrite Hd, Hm. do 3 f_equal; lia.
Qed.

Lemma encode_char_3 b0 b1 b2 :
  let c := (b0 - 0xE0) * 4096 + (b1 - 0x80) * 64 + (b2 - 0x80) in
  0xE0 <= b0 <= 0xEF → is_cont b1 = true → is_cont b2 = true →
  0x800 <= c → is_surrogate c = false →
  encode_char c = Some [b0; b1; b2].
Proof.
  intros c ? ? ? ? Hs. unfold is_cont in *. bools.
  assert (c / 4096 = b0 - 0xE0) as Hd
    by (symmetry; apply Z.div_unique with ((b1 - 0x80) * 64 + (b2 - 0x80)); lia).
  assert (c / 64 = (b0 - 0xE0) * 64 + (b1 - 0x80)) as Hd2
    by (symmetry; apply Z.div_unique with (b2 - 0x80); lia).
  assert ((c / 64) mod 64 = b1 - 0x80) as Hm1
    by (rewrite Hd2; symmetry; apply Z.mod_unique with (b0 - 0xE0); lia).
  assert (c mod 64 = b2 - 0x80) as Hm
    by (symmetry; apply Z.mod_unique with ((b0 - 0xE0) * 64 + (b1 - 0x80)); lia).
  unfold encode_char. rewrite Hs.
  destruct (Z.ltb_spec c 0x80); [lia|]. rewrite andb_false_r.
  destruct (Z.ltb_spec c 0x800); [lia|]. rewrite andb_false_r.
  destruct (Z.leb_spec 0x800 c); [|lia].
  destruct (Z.ltb_spec c 0x10000); [|lia]. simpl.
  rewrite Hd, Hm1, Hm. do 4 f_equal; [lia|lia|f_equal; lia].
Qed.

Lemma encode_char_4 b0 b1 b2 b3 :
  let c := (b0 - 0xF0) * 262144 + (b1 - 0x80) * 4096
           + (b2 - 0x80) * 64 + (b3 - 0x80) in
  0xF0 <= b0 <= 0xF4 → is_cont b1 = true → is_cont b2 = true →
  is_cont b3 = true → 0x10000 <= c <= 0x10FFFF →
  encode_char c = Some [b0; b1; b2; b3].
Proof.
  intros c ? ? ? ? ?. unfold is_cont in *. bools.
  assert (c / 262144 = b0 - 0xF0) as Hd
    by (symmetry; apply Z.div_unique with
          ((b1 - 0x80) * 4096 + (b2 - 0x80) * 64 + (b3 - 0x80)); lia).
  assert (c / 4096 = (b0 - 0xF0) * 64 + (b1 - 0x80)) as Hd1
    by (symmetry; apply Z.div_unique with ((b2 - 0x80) * 64 + (b3 - 0x80)); lia).
  assert (c / 64 = (b0 - 0xF0) * 4096 + (b1 - 0x80) * 64 + (b2 - 0x80)) as Hd2
    by (symmetry; apply Z.div_unique with (b3 - 0x80); lia).
  assert ((c / 4096) mod 64 = b1 - 0x80) as Hm1
    by (rewrite Hd1; symmetry; apply Z.mod_unique with (b0 - 0xF0); lia).
  assert ((c / 64) mod 64 = b2 - 0x80) as Hm2
    by (rewrite Hd2; symmetry;
        apply Z.mod_unique with ((b0 - 0xF0) * 64 + (b1 - 0x80)); lia).
  assert (c mod 64 = b3 - 0x80) as Hm
    by (symmetry; apply Z.mod_unique with
          ((b0 - 0xF0) * 4096 + (b1 - 0x80) * 64 + (b2 - 0x80)); lia).
  unfold encode_char.
  destruct (Z.ltb_spec c 0x80); [lia|]. rewrite andb_false_r.
  destruct (Z.ltb_spec c 0x800); [lia|]. rewrite andb_false_r.
  destruct (Z.ltb_spec c 0x10000); [lia|]. rewrite andb_false_r.
  destruct (Z.leb_spec 0x10000 c); [|lia].
  destruct (Z.leb_spec c 0x10FFFF); [|lia]. simpl.
  rewrite Hd, Hm1, Hm2, Hm. do 5 f_equal; [lia|lia|lia|f_equal; lia].
Qed.

(** Decoding, read as a relation between octets and code points: a code
    point below 128 is its own octet, any other is the octets of its
    encoding, all of them 128 or more. *)
Lemma utf8_decode_ind (P : bytes → pystr → Prop) :
  P [] [] →
  (∀ c r s, 0 <= c < 0x80 → utf8_decode r = Some s → P r s →
            P (c :: r) (c :: s)) →
  (∀ c e r s, 0x80 <= c → encode_char c = Some e →
              Forall (λ x, 0x80 <= x) e →
              utf8_decode r = Some s → P r s → P (e ++ r) (c :: s)) →
  ∀ b s, utf8_decode b = Some s → P b s.
Proof.
  intros Hnil Hascii Hmulti b.
  induction b as [b IH] using (induction_ltof1 _ (@length Z)).
  unfold ltof in IH. intros s. destruct b as [|b0 r0]; simpl.
  - intros [= <-]. done.
  - destruct ((0 <=? b0) && (b0 <? 0x80)) eqn:H1.
    { destruct (utf8_decode r0) as [s0|] eqn:E; simpl; [|done].
      intros [= <-]. bools. apply Hascii; [lia | done |].
      apply IH; [simpl; lia | done]. }
    destruct ((0xC2 <=? b0) && (b0 <=? 0xDF)) eqn:H2.
    { destruct r0 as [|b1 r1]; [done|].
      destruct (is_cont b1) eqn:C1; [|done].
      destruct (utf8_decode r1) as [s0|] eqn:E; simpl; [|done].
      intros [= <-]. bools.
      apply (Hmulti _ [b0; b1]); try done.
      - unfold is_cont in C1. bools. lia.
      - apply encode_char_2; [lia | done].
      - unfold is_cont in C1. bools. repeat constructor; lia.
      - apply IH; [simpl; lia | done]. }
    destruct ((0xE0 <=? b0) && (b0 <=? 0xEF)) eqn:H3.
    { destruct r0 as [|b1 [|b2 r2]]; [done|done|].
      lazymatch goal with |- (if ?x then _ else _) = _ → _ => destruct x eqn:C end; [|done].
      destruct (utf8_decode r2) as [s0|] eqn:E; simpl; [|done].
      intros [= <-]. bools.
      apply (Hmulti _ [b0; b1; b2]); try done.
      - lia.
      - apply encode_char_3; try done; lia.
      - unfold is_cont in *. bools. repeat constructor; lia.
      - apply IH; [simpl; lia | done]. }
    destruct ((0xF0 <=? b0) && (b0 <=? 0xF4)) eqn:H4; [|done].
    destruct r0 as [|b1 [|b2 [|b3 r3]]]; [done|done|done|].
    lazymatch goal with |- (if ?x then _ else _) = _ → _ => destruct x eqn:C end; [|done].
    destruct (utf8_decode r3) as [s0|] eqn:E; simpl; [|done].
    intros [= <-]. bools.
    apply (Hmulti _ [b0; b1; b2; b3]); try done.
    + lia.
    + apply encode_char_4; try done; lia.
    + unfold is_cont in *. bools. repeat constructor; lia.
    + apply IH; [simpl; lia | done].
Qed.

Lemma encode_char_ascii c : 0 <= c < 0x80 → encode_char c = Some [c].
Proof.
  intros ?. unfold encode_char.
  destruct (Z.leb_spec 0 c); [|lia]. destruct (Z.ltb_spec c 0x80); [done|lia].
Qed.

Lemma utf8_encode_decode b s : utf8_decode b = Some s → utf8_encode s = Some b.
Proof.
  revert b s. apply utf8_decode_ind.
  - done.
  - intros c r s Hc _ IH. simpl. by rewrite encode_char_ascii, IH.
  - intros c e r s _ He _ _ IH. simpl. by rewrite He, IH.
Qed.

Lemma utf8_decode_head_LF b s :
  utf8_decode b = Some s → (head b = Some LF ↔ head s = Some LF).
Proof.
  revert b s. apply utf8_decode_ind.
  - done.
  - done.
  - intros c e r s Hc He Hhigh _ _. simpl. split.
    + destruct e as [|x e]; simpl.
      * unfold encode_char in He. repeat case_match; done.
      * intros [= ->]. apply Forall_cons_1 in Hhigh as [Hx _]. unfold LF in Hx. lia.
    + intros [= ->]. unfold LF in Hc. lia.
Qed.

Lemma unix_endings_high e r :
  Forall (λ x, 0x80 <= x) e → unix_endings (e ++ r) = e ++ unix_endings r.
Proof.
  induction 1 as [|x e Hx _ IH]; [done|]. simpl.
  destruct (Z.eqb_spec x CR) as [->|_]; [unfold CR in Hx; lia|].
  simpl. by rewrite IH.
Qed.

(** Normalising the decoded text and encoding it again is normalising the
    octets. *)
Lemma utf8_encode_unix_endings b s :
  utf8_decode b = Some s →
  utf8_encode (unix_endings s) = Some (unix_endings b).
Proof.
  revert b s. apply utf8_decode_ind.
  - done.
  - intros c r s Hc Hd IH. cbn [unix_endings].
    assert (bool_decide (head s = Some LF) = bool_decide (head r = Some LF)) as ->.
    { apply bool_decide_ext. symmetry. by apply utf8_decode_head_LF. }
    destruct (_ && _); [done|].
    simpl. by rewrite encode_char_ascii, IH.
  - intros c e r s Hc He Hhigh _ IH. rewrite unix_endings_high by done.
    cbn [unix_endings].
    destruct (Z.eqb_spec c CR) as [->|_]; [unfold CR in Hc; lia|].
    simpl. by rewrite He, IH.
Qed.

Lemma utf8_decode_encode_char c e r :
  encode_char c = Some e → utf8_decode (e ++ r) = cons c <$> utf8_decode r.
Proof.
  unfold encode_char.
  destruct (Z.leb_spec 0 c); cbn [andb].
  2:{ destruct (Z.leb_spec 0x80 c); [lia|]. cbn [andb].
      destruct (Z.leb_spec 0x800 c); [lia|]. cbn [andb].
      destruct (Z.leb_spec 0x10000 c); [lia|]. done. }
  destruct (Z.ltb_spec c 0x80).
  { intros [= <-]. cbn [Datatypes.app utf8_decode].
    destruct (Z.leb_spec 0 c); [|lia]. destruct (Z.ltb_spec c 0x80); [|lia].
    done. }
  destruct (Z.leb_spec 0x80 c); [|lia]. cbn [andb].
  destruct (Z.ltb_spec c 0x800).
  { intros [= <-].
    pose proof (Z.div_mod c 64 ltac:(lia)).
    pose proof (Z.mod_pos_bound c 64 ltac:(lia)).
    set (q := c / 64) in *. set (m := c mod 64) in *.
    cbn [Datatypes.app utf8_decode].
    destruct (Z.ltb_spec (0xC0 + q) 0x80); [lia|]. rewrite andb_false_r.
    destruct (Z.leb_spec 0xC2 (0xC0 + q)); [|lia].
    destruct (Z.leb_spec (0xC0 + q) 0xDF); [|lia]. cbn [andb].
    unfold is_cont.
    destruct (Z.leb_spec 0x80 (0x80 + m)); [|lia].
    destruct (Z.leb_spec (0x80 + m) 0xBF); [|lia]. cbn [andb].
    replace ((0xC0 + q - 0xC0) * 64 + (0x80 + m - 0x80)) with c by lia.
    done. }
  destruct (Z.leb_spec 0x800 c); [|lia]. cbn [andb].
  destruct (Z.ltb_spec c 0x10000).
  { destruct (is_surrogate c) eqn:Hs; [done|]. intros [= <-].
    pose proof (Z.div_mod c 64 ltac:(lia)).
    pose proof (Z.mod_pos_bound c 64 ltac:(lia)).
    pose proof (Z.div_mod (c / 64) 64 ltac:(lia)).
    pose proof (Z.mod_pos_bound (c / 64) 64 ltac:(lia)).
    assert (c / 4096 = c / 64 / 64) as Hq
      by (rewrite Z.div_div by lia; done).
    set (q1 := c / 64) in *. set (m := c mod 64) in *.
    set (m1 := q1 mod 64) in *. set (q := c / 4096) in *.
    cbn [Datatypes.app utf8_decode].
    destruct (Z.ltb_spec (0xE0 + q) 0x80); [lia|]. rewrite andb_false_r.
    destruct (Z.leb_spec (0xE0 + q) 0xDF); [lia|]. rewrite andb_false_r.
    destruct (Z.leb_spec 0xE0 (0xE0 + q)); [|lia].
    destruct (Z.leb_spec (0xE0 + q) 0xEF); [|lia]. cbn [andb]. cbv zeta.
    unfold is_cont.
    destruct (Z.leb_spec 0x80 (0x80 + m)); [|lia].
    destruct (Z.leb_spec (0x80 + m) 0xBF); [|lia].
    destruct (Z.leb_spec 0x80 (0x80 + m1)); [|lia].
    destruct (Z.leb_spec (0x80 + m1) 0xBF); [|lia]. cbn [andb].
    replace ((0xE0 + q - 0xE0) * 4096 + (0x80 + m1 - 0x80) * 64
             + (0x80 + m - 0x80)) with c by lia.
    rewrite Hs. destruct (Z.leb_spec 0x800 c); [|lia]. done. }
  destruct (Z.leb_spec 0x10000 c); [|lia]. cbn [andb].
  destruct (Z.leb_spec c 0x10FFFF); [|done]. intros [= <-].
  pose proof (Z.div_mod c 64 ltac:(lia)).
  pose proof (Z.mod_pos_bound c 64 ltac:(lia)).
  pose proof (Z.div_mod (c / 64) 64 ltac:(lia)).
  pose proof (Z.mod_pos_bound (c / 64) 64 ltac:(lia)).
  pose proof (Z.div_mod (c / 4096) 64 ltac:(lia)).
  pose proof (Z.mod_pos_bound (c / 4096) 64 ltac:(lia)).
  assert (c / 4096 = c / 64 / 64) as Hq
    by (rewrite Z.div_div by lia; done).
  assert (c / 262144 = c / 4096 / 64) as Hq'
    by (rewrite Z.div_div by lia; done).
  set (q1 := c / 64) in *. set (m := c mod 64) in *.
  set (m1 := q1 mod 64) in *. set (q2 := c / 4096) in *.
  set (m2 := q2 mod 64) in *. set (q := c / 262144) in *.
  cbn [Datatypes.app utf8_decode].
  destruct (Z.ltb_spec (0xF0 + q) 0x80); [lia|]. rewrite andb_false_r.
  destruct (Z.leb_spec (0xF0 + q) 0xDF); [lia|]. rewrite andb_false_r.
  destruct (Z.leb_spec (0xF0 + q) 0xEF); [lia|]. rewrite andb_false_r.
  destruct (Z.leb_spec 0xF0 (0xF0 + q)); [|lia].
  destruct (Z.leb_spec (0xF0 + q) 0xF4); [|lia]. cbn [andb]. cbv zeta.
  unfold is_cont.
  destruct (Z.leb_spec 0x80 (0x80 + m)); [|lia].
  destruct (Z.leb_spec (0x80 + m) 0xBF); [|lia].
  destruct (Z.leb_spec 0x80 (0x80 + m1)); [|lia].
  destruct (Z.leb_spec (0x80 + m1) 0xBF); [|lia].
  destruct (Z.leb_spec 0x80 (0x80 + m2)); [|lia].
  destruct (Z.leb_spec (0x80 + m2) 0xBF); [|lia]. cbn [andb].
  replace ((0xF0 + q - 0xF0) * 262144 + (0x80 + m2 - 0x80) * 4096
           + (0x80 + m1 - 0x80) * 64 + (0x80 + m - 0x80)) with c by lia.
  destruct (Z.leb_spec 0x10000 c); [|lia].
  destruct (Z.leb_spec c 0x10FFFF); [|lia]. done.
Qed.

(** Encoding and decoding again gives the text back. *)
Lemma utf8_decode_encode s b : utf8_encode s = Some b → utf8_decode b = Some s.
Proof.
  revert b. induction s as [|c s IH]; intros b; simpl.
  - by intros [= <-].
  - destruct (encode_char c) as [e|] eqn:He; [|done].
    destruct (utf8_encode s) as [t|]; [|done]. intros [= <-].
    by rewrite (utf8_decode_encode_char _ _ _ He), (IH t).
Qed.

Lemma utf8_encode_app s1 s2 :
  utf8_encode (s1 ++ s2)
  = b1 ← utf8_encode s1; b2 ← utf8_encode s2; Some (b1 ++ b2).
Proof.
  induction s1 as [|c s1 IH]; simpl.
  - by destruct (utf8_encode s2).
  - rewrite IH. destruct (encode_char c); [|done].
    destruct (utf8_encode s1); [|done]. cbn.
    destruct (utf8_encode s2); [|done]. cbn. by rewrite app_assoc.
Qed.

Lemma utf8_encode_strip s :
  is_Some (utf8_encode s) → is_Some (utf8_encode (strip s)).
Proof.
  destruct (lstrip_split s) as (ws1 & E1 & _).
  destruct (rstrip_split (lstrip s)) as (ws2 & E2 & _).
  assert (s = ws1 ++ strip s ++ ws2) as E.
  { unfold strip. by rewrite <- E2. }
  clear E1 E2. revert E. generalize (strip s). intros t ->.
  rewrite !utf8_encode_app.
  destruct (utf8_encode ws1); [|by intros [? ?]]. cbn.
  destruct (utf8_encode t); [eauto | by intros [? ?]].
Qed.

(** Decoding goes from left to right: after text that decodes, what
    follows is decoded on its own. *)
Lemma utf8_decode_app good s rest :
  utf8_decode good = Some s →
  utf8_decode (good ++ rest) = (s ++.) <$> utf8_decode rest.
Proof.
  revert good s. apply utf8_decode_ind.
  - rewrite app_nil_l. by destruct (utf8_decode rest).
  - intros c r s Hc _ IH. rewrite <- app_comm_cons. cbn [utf8_decode].
    destruct (Z.leb_spec 0 c); [|lia]. destruct (Z.ltb_spec c 0x80); [|lia].
    cbn [andb]. rewrite IH. by destruct (utf8_decode rest).
  - intros c e r s _ He _ _ IH.
    rewrite <- app_assoc, (utf8_decode_encode_char _ _ _ He), IH.
    by destruct (utf8_decode rest).
Qed.

Lemma utf8_decode_never_starts bad rest :
  never_starts bad = true → utf8_decode (bad :: rest) = None.
Proof.
  unfold never_starts. intros H. cbn [utf8_decode].
  destruct (Z.ltb_spec bad 0x80).
  { exfalso. apply orb_prop in H as [H|H]; bools; lia. }
  rewrite andb_false_r.
  destruct (Z.leb_spec 0xC2 bad); cbn [andb].
  - destruct (Z.leb_spec bad 0xDF).
    { exfalso. apply orb_prop in H as [H|H]; bools; lia. }
    destruct (Z.leb_spec bad 0xEF); [exfalso|].
    { apply orb_prop in H as [H|H]; bools; lia. }
    rewrite andb_false_r.
    destruct (Z.leb_spec bad 0xF4); [exfalso|].
    { apply orb_prop in H as [H|H]; bools; lia. }
    by rewrite andb_false_r.
  - destruct (Z.leb_spec 0xE0 bad); [lia|].
    destruct (Z.leb_spec 0xF0 bad); [lia|]. done.
Qed.

Lemma utf8_decode_unix_endings b s :
  utf8_decode b = Some s → utf8_decode (unix_endings b) = Some (unix_endings s).
Proof. intros H. by apply utf8_decode_encode, utf8_encode_unix_endings. Qed.

(** ** Rules of the program logic *)

Section wp_rules.
Context {A B : Type}.

Lemma wp_bind (m : M A) (k : A → M B) st (Q : result B → State → Prop) :
  wp m st (λ r st1,
    match r with
    | Ok a => wp (k a) st1 Q
    | Raise e => Q (Raise e) st1
    end) →
  wp (m ≫= k) st Q.
Proof.
  unfold wp, mbind, M_bind, bind. by destruct (m st) as [[a|e] st1].
Qed.

Lemma wp_ret (a : A) st (Q : result A → State → Prop) :
  Q (Ok a) st → wp (ret a) st Q.
Proof. done. Qed.

Lemma wp_raise e st (Q : result A → State → Prop) :
  Q (Raise e) st → wp (raise e) st Q.
Proof. done. Qed.

Lemma wp_lift (r : result A) st (Q : result A → State → Prop) :
  Q r st → wp (lift r) st Q.
Proof. done. Qed.

Lemma wp_gets (f : State → A) st (Q : result A → State → Prop) :
  Q (Ok (f st)) st → wp (gets f) st Q.
Proof. done. Qed.

Lemma wp_try_except (m : M A) h st (Q : result A → State → Prop) :
  wp m st (λ r st1,
    match r with
    | Ok a => Q (Ok a) st1
    | Raise e => if is_Exception e then wp (h e) st1 Q else Q (Raise e) st1
    end) →
  wp (try_except m h) st Q.
Proof.
  unfold wp, try_except. destruct (m st) as [[a|e] st1]; [done|].
  simpl. by destruct (is_Exception e).
Qed.

Lemma wp_fmap (f : A → B) (m : M A) st (Q : result B → State → Prop) :
  wp m st (λ r st1,
    match r with
    | Ok a => Q (Ok (f a)) st1
    | Raise e => Q (Raise e) st1
    end) →
  wp (f <$> m) st Q.
Proof.
  unfold wp, fmap, M_fmap, bind. by destruct (m st) as [[a|e] st1].
Qed.

Lemma wp_mono (m : M A) st (Q Q' : result A → State → Prop) :
  wp m st Q → (∀ r st1, Q r st1 → Q' r st1) → wp m st Q'.
Proof. unfold wp. auto. Qed.

End wp_rules.

Lemma wp_modify f st (Q : result unit → State → Prop) :
  Q (Ok tt) (f st) → wp (modify f) st Q.
Proof. done. Qed.

Lemma wp_emit e st (Q : result unit → State → Prop) :
  Q (Ok tt) (set_trace (λ t, t ++ [e]) st) → wp (emit e) st Q.
Proof. done. Qed.

Lemma read_lines_eq p st : read_lines p st = (source_lines (fs st) p, st).
Proof.
  unfold read_lines, read_bytes, source_lines. munfold. cbn beta iota zeta.
  destruct (fs st !! p) as [b|]; [|done]. cbn. by destruct (utf8_decode b).
Qed.

(** A descriptor parser reads the file and changes nothing. *)
Lemma wp_parse {A} (parse_in : list pystr → result A) p st
    (Q : result A → State → Prop) :
  Q (source_lines (fs st) p ≫= parse_in) st →
  wp (read_lines p ≫= λ lines, lift (parse_in lines)) st Q.
Proof.
  unfold wp. munfold. rewrite read_lines_eq.
  by destruct (source_lines (fs st) p).
Qed.

Lemma wp_read_bytes p st (Q : result bytes → State → Prop) :
  match fs st !! p with
  | Some b => Q (Ok b) st
  | None => Q (Raise FileNotFoundError) st
  end →
  wp (read_bytes p) st Q.
Proof. unfold wp, read_bytes. by destruct (fs st !! p). Qed.

Lemma wp_deref self st (Q : result SSHModuleManagerObj → State → Prop) :
  match heap st !! self with
  | Some o => Q (Ok o) st
  | None => Q (Raise AttributeError) st
  end →
  wp (SSHModuleManager.deref self) st Q.
Proof. unfold wp, SSHModuleManager.deref. by destruct (heap st !! self). Qed.

(** Projections of an updated state. *)
Ltac state_simpl :=
  cbn [fs trace spawned heap app set_fs set_trace set_spawned set_heap set_app
       module_manager engine_ssh_manager repo set_module_manager
       set_engine_ssh_manager active_processes ssh_manager modules_dir modules
       repo_url mm_remote_path set_active_processes fst snd] in *.

Lemma quietly_after_refl st : quietly_after st st.
Proof. exists []. by rewrite app_nil_r. Qed.

Lemma quietly_after_trans st1 st2 st3 :
  quietly_after st1 st2 → quietly_after st2 st3 → quietly_after st1 st3.
Proof.
  intros [e1 [E1 F1]] [e2 [E2 F2]]. exists (e1 ++ e2). split.
  - by rewrite E2, E1, app_assoc.
  - by rewrite forallb_app, F1, F2.
Qed.

Lemma quietly_after_emit st st' e :
  quietly_after st st' → is_terminate e = false →
  quietly_after st (set_trace (λ t, t ++ [e]) st').
Proof.
  intros H He. eapply quietly_after_trans; [exact H|].
  exists [e]. split; [done|]. simpl. by rewrite He.
Qed.

(** [quietly_after st st'] for a state [st'] written out from [st]. *)
Ltac quiet :=
  unfold quietly_after; state_simpl; rewrite <- ?app_assoc;
  first [ by (exists []; rewrite ?app_nil_r)
        | by (eexists; split; [reflexivity | reflexivity]) ].

Ltac wp_step :=
  lazymatch goal with
  | |- wp (_ ≫= _) _ _ => apply wp_bind
  | |- wp (ret _) _ _ => apply wp_ret
  | |- wp (raise _) _ _ => apply wp_raise
  | |- wp (lift _) _ _ => apply wp_lift
  | |- wp (gets _) _ _ => apply wp_gets
  | |- wp (modify _) _ _ => apply wp_modify
  | |- wp (emit _) _ _ => apply wp_emit
  | |- wp (print _) _ _ => apply wp_emit
  | |- wp (try_except _ _) _ _ => apply wp_try_except
  | |- wp (_ <$> _) _ _ => apply wp_fmap
  | |- wp (path_exists _) _ _ => apply wp_gets
  | |- wp (read_bytes _) _ _ => apply wp_read_bytes
  | |- wp (decode _) _ _ => unfold decode
  | |- wp (encode _) _ _ => unfold encode
  | |- wp (open_write _ _ _) _ _ => unfold open_write
  | |- wp (write_bytes _ _) _ _ => apply wp_modify
  | |- wp (SSHModuleManager.deref _) _ _ => apply wp_deref
  | |- wp (SSHModuleManager.update _ _) _ _ => apply wp_modify
  | |- wp (SSHModuleManager.get_transport _) _ _ =>
      unfold SSHModuleManager.get_transport
  | |- wp (SSHModuleManager.scp_put _ _ _) _ _ =>
      unfold SSHModuleManager.scp_put
  | |- wp (SSHModuleManager.ssh_exec _ _ _) _ _ =>
      unfold SSHModuleManager.ssh_exec
  | |- wp ModuleManager.self _ _ => apply wp_gets
  | |- wp (ModuleManager.update_self _) _ _ => apply wp_modify
  | |- wp (ModuleManager.parse_silent_flag _) _ _ => apply wp_parse
  | |- wp (ModuleManager.parse_logfile_path _) _ _ => apply wp_parse
  | |- wp (ModuleManager.parse_follow_log_flag _) _ _ => apply wp_parse
  | |- wp (ModuleManager.parse_dependencies _) _ _ => apply wp_parse
  | |- wp (ModuleManager.popen _ _ _) _ _ => unfold ModuleManager.popen
  | |- wp (ModuleManager.popen_shell _ _) _ _ =>
      unfold ModuleManager.popen_shell
  | |- wp (ModuleManager.subprocess_run _ _) _ _ =>
      unfold ModuleManager.subprocess_run
  | |- wp (if ?c then _ else _) _ _ => destruct c eqn:?
  | |- wp (match ?x with _ => _ end) _ _ => destruct x eqn:?
  | |- match ?x with _ => _ end => destruct x eqn:?
  | |- if ?x then _ else _ => destruct x eqn:?
  end; cbn beta iota.

(** ** The descriptor parsers never fail on a file that decodes *)

Lemma split_nonempty sep s : ∃ w ws, split sep s = w :: ws.
Proof.
  induction s as [|c r (w & ws & E)]; simpl; [eauto|].
  destruct (c =? sep); [eauto|]. rewrite E. eauto.
Qed.

Lemma split_second sep s : sep ∈ s → ∃ w, split sep s !! 1%nat = Some w.
Proof.
  induction s as [|c r IH]; [by intros ?%not_elem_of_nil|].
  simpl. destruct (Z.eqb_spec c sep) as [->|Hne].
  - intros _. destruct (split_nonempty sep r) as (w & ws & ->). by exists w.
  - intros [?|Hin]%elem_of_cons; [congruence|].
    destruct (IH Hin) as [w Hw].
    destruct (split_nonempty sep r) as (w0 & ws & E). rewrite E in *.
    by exists w.
Qed.

Lemma forallb_elem (f : Z → bool) l x : forallb f l = true → x ∈ l → f x = true.
Proof.
  intros H Hx. rewrite forallb_forall in H. apply H. by apply list_elem_of_In.
Qed.

Lemma strip_keeps x s : x ∈ s → is_space x = false → x ∈ strip s.
Proof.
  intros Hx Hs. unfold strip.
  destruct (lstrip_split s) as (ws & E & F). rewrite E in Hx.
  apply elem_of_app in Hx as [Hx|Hx].
  { pose proof (forallb_elem _ _ _ F Hx). congruence. }
  destruct (rstrip_split (lstrip s)) as (ws' & E' & F'). rewrite E' in Hx.
  apply elem_of_app in Hx as [Hx|Hx]; [done|].
  pose proof (forallb_elem _ _ _ F' Hx). congruence.
Qed.

Lemma startswith_elem s p x : startswith s p = true → x ∈ p → x ∈ s.
Proof.
  intros [r ->]%startswith_app Hx. apply elem_of_app. by left.
Qed.

(** The field of a marker line: a line that starts with a marker that has a
    colon in it splits into at least two pieces, so [[1]] never fails. *)
Lemma marker_field line marker :
  startswith line marker = true → ModuleManager.COLON ∈ marker →
  ∃ w, index (split ModuleManager.COLON (strip line)) 1 = Ok w.
Proof.
  intros Hs Hc. unfold index.
  destruct (split_second ModuleManager.COLON (strip line)) as [w ->]; [|eauto].
  apply strip_keeps; [|done]. by eapply startswith_elem.
Qed.

Ltac colon_in := apply (bool_decide_unpack _); by vm_compute.

Lemma parse_silent_flag_in_total lines :
  ∃ v, ModuleManager.parse_silent_flag_in lines = Ok v.
Proof.
  induction lines as [|line rest IH]; cbn [ModuleManager.parse_silent_flag_in];
    [eauto|].
  destruct (startswith line _) eqn:E; [|done].
  destruct (marker_field _ _ E) as [w ->]; [colon_in|]. simpl. eauto.
Qed.

Lemma parse_logfile_path_in_total lines :
  ∃ v, ModuleManager.parse_logfile_path_in lines = Ok v.
Proof.
  induction lines as [|line rest IH]; cbn [ModuleManager.parse_logfile_path_in];
    [eauto|].
  destruct (startswith line _) eqn:E; [|done].
  destruct (marker_field _ _ E) as [w ->]; [colon_in|]. simpl. eauto.
Qed.

Lemma parse_follow_log_flag_in_total lines :
  ∃ v, ModuleManager.parse_follow_log_flag_in lines = Ok v.
Proof.
  induction lines as [|line rest IH];
    cbn [ModuleManager.parse_follow_log_flag_in]; [eauto|].
  destruct (startswith line _) eqn:E; [|done].
  destruct (marker_field _ _ E) as [w ->]; [colon_in|]. simpl. eauto.
Qed.

Lemma parse_dependencies_in_total lines :
  ∃ v, ModuleManager.parse_dependencies_in lines = Ok v.
Proof.
  induction lines as [|line rest IH];
    cbn [ModuleManager.parse_dependencies_in]; [eauto|].
  destruct (startswith line _) eqn:E; [|done].
  destruct (marker_field _ _ E) as [w ->]; [colon_in|]. simpl. eauto.
Qed.

(** ** The log file path of a descriptor *)

Lemma split_pieces_no_sep sep s w : w ∈ split sep s → sep ∉ w.
Proof.
  revert w. induction s as [|c r IH]; intros w; simpl.
  - intros ->%list_elem_of_singleton. apply not_elem_of_nil.
  - destruct (Z.eqb_spec c sep) as [->|Hne].
    + intros [->|Hw]%elem_of_cons; [apply not_elem_of_nil | auto].
    + destruct (split sep r) as [|v vs] eqn:E.
      * intros ->%list_elem_of_singleton.
        intros [?|[]%not_elem_of_nil]%elem_of_cons. congruence.
      * intros [->|Hw]%elem_of_cons.
        -- intros [?|Hv]%elem_of_cons; [congruence|].
           apply (IH v); [left | done].
        -- apply IH. by right.
Qed.

Lemma lstrip_elem x s : x ∈ lstrip s → x ∈ s.
Proof.
  induction s as [|c r IH]; simpl; [done|].
  destruct (is_space c); [|done]. intros H. right. auto.
Qed.

Lemma strip_elem x s : x ∈ strip s → x ∈ s.
Proof.
  unfold strip, rstrip. intros H.
  apply lstrip_elem. apply elem_of_reverse.
  apply lstrip_elem. by apply elem_of_reverse.
Qed.

(** Whatever the module source, the parsed path never has a colon in it:
    the marker line is split at every colon and only the piece after the
    first one is kept. *)
Lemma parse_logfile_path_in_no_colon lines p :
  ModuleManager.parse_logfile_path_in lines = Ok (Some p) →
  ModuleManager.COLON ∉ p.
Proof.
  induction lines as [|line rest IH];
    cbn [ModuleManager.parse_logfile_path_in]; [done|].
  destruct (startswith line _); [|done].
  unfold index. destruct (split _ _ !! 1%nat) as [w|] eqn:E; simpl; [|done].
  intros [= <-] Hin. apply strip_elem in Hin.
  eapply split_pieces_no_sep; [|exact Hin].
  eapply list_elem_of_lookup_2; eauto.
Qed.

(** C9 (the code at the failing input). The module source
    [# Logfile: logs/a:b.log] declares the path [logs/a:b.log];
    [parse_logfile_path] returns [logs/a], the text between the first and
    the second colon. *)
Theorem parse_logfile_path_cut_at_second_colon :
  (ModuleManager.parse_logfile_path Sample.m_sh
     (Engine.initial Sample.with_logfile)).1 = Ok (Some (py "logs/a")).
Proof. vm_compute. reflexivity. Qed.

(** ** An empty dependencies marker *)

Lemma parse_dependencies_in_skip pre rest :
  Forall (λ line, startswith line (py "# Dependencies:") = false) pre →
  ModuleManager.parse_dependencies_in (pre ++ rest)
  = ModuleManager.parse_dependencies_in rest.
Proof.
  induction 1 as [|line pre Hl _ IH]; [done|].
  cbv beta in Hl. rewrite <- app_comm_cons.
  cbn [ModuleManager.parse_dependencies_in]. by rewrite Hl.
Qed.

Lemma strip_marker_line marker ws :
  strip marker = marker → marker ≠ [] → forallb is_space ws = true →
  strip (marker ++ ws) = marker.
Proof.
  intros Hm Hne Hws. destruct marker as [|c m]; [done|].
  assert (is_space c = false) as Hc.
  { apply (strip_head (c :: m)). by rewrite Hm. }
  unfold strip in *. rewrite <- app_comm_cons, lstrip_nonspace by done.
  rewrite lstrip_nonspace in Hm by done.
  rewrite app_comm_cons, rstrip_app_spaces by done. done.
Qed.

(** C10. For a module source whose dependencies marker line has nothing
    but white space after the colon (and is the first such marker line),
    [parse_dependencies] returns the one-element list holding the empty
    string, and [install_dependencies] on that list attempts to install the
    package with the empty name: remotely it runs the install command with
    no package name, locally (no executable has the empty name) it runs
    the package command with an empty argument. *)
Theorem empty_dependencies_marker env st path b s pre ws post :
  fs st !! path = Some b →
  utf8_decode b = Some s →
  readlines (translate_newlines s)
    = pre ++ (py "# Dependencies:" ++ ws) :: post →
  Forall (λ line, startswith line (py "# Dependencies:") = false) pre →
  forallb is_space ws = true →
  which env [] = None →
  (∀ ssh, ssh_manager (manager st) = Some ssh →
          ∃ o, heap st !! ssh = Some o
               ∧ ssh_client o = Some (mkSSHClient true)) →
  ModuleManager.parse_dependencies path st = (Ok [[]], st)
  ∧ ∃ attempt later,
      install_attempt [] attempt
      ∧ trace (ModuleManager.install_dependencies env [[]] st).2
        = trace st
          ++ [EPrint (match ssh_manager (manager st) with
                      | Some _ => py "Installing dependency on remote machine: "
                      | None => py "Installing dependency: "
                      end);
              attempt] ++ later.
Proof.
  intros Hb Hs Hlines Hpre Hws Hwhich Hssh. split.
  - unfold ModuleManager.parse_dependencies. munfold.
    rewrite read_lines_eq. unfold source_lines. rewrite Hb, Hs, Hlines.
    rewrite parse_dependencies_in_skip by done.
    cbn [ModuleManager.parse_dependencies_in].
    rewrite (proj2 (startswith_app _ _)) by eauto.
    rewrite strip_marker_line by done. reflexivity.
  - unfold ModuleManager.install_dependencies, ModuleManager.self,
      ModuleManager.is_dependency_installed, ModuleManager.subprocess_run,
      SSHModuleManager.deref, SSHModuleManager.ssh_exec,
      SSHModuleManager.get_transport.
    munfold. cbn beta iota zeta.
    destruct (ssh_manager (manager st)) as [ssh|] eqn:E.
    + destruct (Hssh ssh eq_refl) as (o & Ho & Hc).
      cbn. rewrite Ho. cbn. rewrite Hc. cbn.
      exists (EExec (py "sudo apt install -y " ++ [])).
      destruct (exec_command env _) as [[out err]|x]; cbn.
      * eexists. split; [by right|]. by rewrite <- !app_assoc, app_nil_r.
      * exists []. split; [by right|]. by rewrite <- !app_assoc, app_nil_r.
    + rewrite Hwhich. cbn.
      exists (ERun [py "sudo"; py "apt"; py "install"; py "-y"; []]).
      exists []. split; [by left|].
      destruct (subprocess_run_fault env _); cbn;
        by rewrite <- !app_assoc, app_nil_r.
Qed.

Lemma empty_dependencies_marker_witness :
  let st := Engine.initial Sample.with_empty_dependencies in
  ModuleManager.parse_dependencies Sample.m_sh st = (Ok [[]], st)
  ∧ ∃ attempt later,
      install_attempt [] attempt
      ∧ trace (ModuleManager.install_dependencies (Sample.quiet []) [[]] st).2
        = trace st
          ++ [EPrint (match ssh_manager (manager st) with
                      | Some _ => py "Installing dependency on remote machine: "
                      | None => py "Installing dependency: "
                      end);
              attempt] ++ later.
Proof.
  intros st.
  apply (empty_dependencies_marker (Sample.quiet []) st Sample.m_sh
           Sample.no_dependencies_source Sample.no_dependencies_source
           [] [LF] [py "echo hi" ++ [LF]]).
  - vm_compute. reflexivity.
  - vm_compute. reflexivity.
  - vm_compute. reflexivity.
  - constructor.
  - reflexivity.
  - reflexivity.
  - intros ssh H. vm_compute in H. discriminate H.
Defined.

(** ** Line-ending normalisation before upload *)

(** What [convert_line_endings_to_unix] leaves behind: the engine, the SSH
    objects and the process count are untouched, nothing is terminated, and
    the file is rewritten only when it decodes and can be opened for
    writing. *)
Lemma convert_line_endings_to_unix_frame env path st :
  wp (SSHModuleManager.convert_line_endings_to_unix env path) st (λ r st',
    app st' = app st ∧ heap st' = heap st ∧ spawned st' = spawned st
    ∧ quietly_after st st'
    ∧ match fs st !! path with
      | Some b =>
          match utf8_decode b, open_write_fault env path with
          | Some _, None => fs st' = <[path := unix_endings b]> (fs st)
          | _, _ => fs st' = fs st
          end
      | None => fs st' = fs st
      end).
Proof.
  unfold SSHModuleManager.convert_line_endings_to_unix.
  repeat wp_step; state_simpl; repeat split; try quiet; try done.
  all: match goal with
       | D : utf8_decode _ = Some _, E : utf8_encode _ = _ |- _ =>
           rewrite replace_crlf, (utf8_encode_unix_endings _ _ D) in E;
           try discriminate E; injection E as <-
       end.
  by rewrite lookup_insert_eq, insert_insert_eq.
Qed.

(** C4 (counterexample). A file made of CR CR LF is valid UTF-8; after the
    normalisation it holds CR LF: the output does contain a CR LF pair. *)
Lemma crlf_survives_normalisation :
  let path := py "modules/dos.sh" in
  let st := Engine.initial {[ path := [CR; CR; LF] ]} in
  fs (SSHModuleManager.convert_line_endings_to_unix (Sample.quiet []) path st).2
    !! path = Some [CR; LF]
  ∧ contains [CR; LF] [CR; LF].
Proof. split; [vm_compute; reflexivity | by exists [], []]. Qed.

(** C4 (amended). For a file that is valid UTF-8 (and can be opened for
    writing), the normalisation removes exactly the carriage returns that
    stand immediately before a line feed: the output is a subsequence of
    the input, every octet other than a carriage return is kept, in order,
    and the output contains CR LF exactly when the input contains
    CR CR LF. A file that is not valid UTF-8 is left as it is. *)
Theorem line_endings_normalised env path st b :
  fs st !! path = Some b →
  open_write_fault env path = None →
  ∃ out,
    fs (SSHModuleManager.convert_line_endings_to_unix env path st).2 !! path
      = Some out
    ∧ match utf8_decode b with
      | Some _ =>
          out = unix_endings b
          ∧ sublist out b
          ∧ filter (λ x, x ≠ CR) out = filter (λ x, x ≠ CR) b
          ∧ (contains [CR; LF] out ↔ contains [CR; CR; LF] b)
      | None => out = b
      end.
Proof.
  intros Hb Hw.
  pose proof (convert_line_endings_to_unix_frame env path st) as H.
  unfold wp in H. destruct H as (_ & _ & _ & _ & H). rewrite Hb, Hw in H.
  destruct (utf8_decode b) as [s|].
  - exists (unix_endings b). rewrite H, lookup_insert_eq.
    split; [done|]. split; [done|]. split; [apply unix_endings_sublist|].
    split; [apply unix_endings_keeps|].
    by rewrite <- !has_infix_contains, unix_endings_crlf.
  - exists b. by rewrite H.
Qed.

Lemma line_endings_normalised_witness :
  ∃ out,
    fs (SSHModuleManager.convert_line_endings_to_unix (Sample.quiet [])
          Sample.m_sh (Engine.initial Sample.with_logfile)).2 !! Sample.m_sh
      = Some out
    ∧ match utf8_decode Sample.dos_source with
      | Some _ =>
          out = unix_endings Sample.dos_source
          ∧ sublist out Sample.dos_source
          ∧ filter (λ x, x ≠ CR) out = filter (λ x, x ≠ CR) Sample.dos_source
          ∧ (contains [CR; LF] out ↔ contains [CR; CR; LF] Sample.dos_source)
      | None => out = Sample.dos_source
      end.
Proof.
  apply line_endings_normalised; [vm_compute; reflexivity | reflexivity].
Defined.

(** ** The output of a remote run *)

(** C8 (counterexample). The remote command prints [hi] and a line break
    on stdout and nothing on stderr; [run_remote_script] returns [hi]: the
    captured stdout is not returned in full. *)
Lemma remote_output_is_stripped :
  let out := py "hi" ++ [LF] in
  let st := Sample.connected_state out Sample.plain in
  exec_command (Sample.quiet out) (py "bash /tmp//m.sh ") = Ok (out, [])
  ∧ utf8_decode out = Some out
  ∧ (SSHModuleManager.run_remote_script (Sample.quiet out) 0 (py "m.sh") [] st).1
    = Ok (py "hi")
  ∧ py "hi" ≠ out.
Proof.
  vm_compute. split; [reflexivity|]. split; [reflexivity|].
  split; [reflexivity | discriminate].
Qed.

(** C8 (amended). For a remote script run with captured stdout [S] and
    stderr [E], the returned output is [S] without its leading and trailing
    white space, followed, when [E] has anything but white space, by one
    line break and [E] without its leading and trailing white space. The
    line break is the only white space at the joint: the first part does
    not end and the second does not start with white space. *)
Theorem run_remote_script_output env ssh o name args command out err s e st :
  heap st !! ssh = Some o →
  ssh_client o = Some (mkSSHClient true) →
  SSHModuleManager.remote_command o name args = Ok command →
  exec_command env command = Ok (out, err) →
  utf8_decode out = Some s →
  utf8_decode err = Some e →
  (SSHModuleManager.run_remote_script env ssh name args st).1
    = Ok (strip s ++ (if bool_decide (strip e = []) then []
                      else [LF] ++ strip e))
  ∧ (∀ c, last (strip s) = Some c → is_space c = false)
  ∧ (∀ c, head (strip e) = Some c → is_space c = false).
Proof.
  intros Ho Hc Hcmd Hex Hs He. split; [|split; [apply strip_last | apply strip_head]].
  unfold SSHModuleManager.run_remote_script, SSHModuleManager.deref,
    SSHModuleManager.ssh_exec, SSHModuleManager.get_transport.
  munfold. cbn beta iota zeta. rewrite Ho. cbn beta iota zeta.
  rewrite Hcmd, Hc. cbn. rewrite Hex. cbn. rewrite Hs. cbn. rewrite He. cbn.
  unfold SSHModuleManager.combined_output.
  destruct (strip e); done.
Qed.

Lemma run_remote_script_output_witness :
  let out := py " hi" ++ [LF] in
  let err := py "warning" ++ [LF; LF] in
  (SSHModuleManager.run_remote_script (Sample.remote out err) 0 (py "m.sh")
     [py "-v"] (Sample.connected_state out Sample.plain)).1
    = Ok (strip out ++ (if bool_decide (strip err = []) then []
                        else [LF] ++ strip err))
  ∧ (∀ c, last (strip out) = Some c → is_space c = false)
  ∧ (∀ c, head (strip err) = Some c → is_space c = false).
Proof.
  intros out err.
  apply (run_remote_script_output (Sample.remote out err) 0%nat
           (mkSSH (py "h") (py "u") (py "/tmp/") (Some (mkSSHClient true)))
           (py "m.sh") [py "-v"] (py "bash /tmp//m.sh -v") out err out err);
    vm_compute; reflexivity.
Defined.

(** ** Stopping a module *)


(** ** Launching a module that is not installed *)

(** A launch of a module that is not installed only prints a message. *)
Lemma launch_missing_module_state env name args st :
  fs st !! path_join (modules_dir (manager st)) name = None →
  ModuleManager.launch_module env name args st
  = (Ok false,
     set_trace (λ t, t ++ [EPrint (py "Module " ++ name ++ py " not found.")])
       st).
Proof.
  intros H. unfold ModuleManager.launch_module, ModuleManager.self. munfold.
  cbn beta iota zeta. rewrite H.
  rewrite bool_decide_eq_false_2 by (intros [? ?]; discriminate).
  reflexivity.
Qed.

(** C5. For every module name with no file in local storage and every
    argument list, [launch_module] returns [False] and leaves the Running
    Instance table as it was: no entry is created, for that name or any
    other. *)
Theorem launch_missing_module env name args st :
  fs st !! path_join (modules_dir (manager st)) name = None →
  ∃ st', ModuleManager.launch_module env name args st = (Ok false, st')
         ∧ table st' = table st.
Proof.
  intros H. rewrite (launch_missing_module_state _ _ _ _ H).
  eexists. split; reflexivity.
Qed.

Lemma launch_missing_module_witness :
  ∃ st', ModuleManager.launch_module (Sample.quiet []) (py "ghost.sh")
           [py "-v"] (Engine.initial Sample.plain) = (Ok false, st')
         ∧ table st' = table (Engine.initial Sample.plain).
Proof. apply launch_missing_module. vm_compute. reflexivity. Defined.

(** ** Local launches *)

(** What a local launch does, whatever its outcome: files that exist keep
    their contents, the SSH objects are untouched, no termination request
    is sent; on success the new process has the next handle, the table
    gets that handle under the module name and the process count grows. *)
Lemma launch_module_local env name args st :
  ssh_manager (manager st) = None →
  wp (ModuleManager.launch_module env name args) st (λ r st',
    (∀ p b, fs st !! p = Some b → fs st' !! p = Some b)
    ∧ heap st' = heap st
    ∧ ssh_manager (manager st') = None
    ∧ quietly_after st st'
    ∧ (r = Ok true →
         table st' = <[name := spawned st]> (table st)
         ∧ (spawned st < spawned st')%nat
         ∧ ∃ argv redirect, EPopen argv redirect (spawned st) ∈ trace st')).
Proof.
  intros Hl. unfold ModuleManager.launch_module.
  repeat wp_step; try congruence; state_simpl;
   (split; [|split; [|split; [|split]]]); try done; try quiet.
  all: try (intros _; split; [done|]; split; [lia|];
            eexists _, _; rewrite !elem_of_app, !list_elem_of_singleton;
            eauto 10).
  all: intros p b Hp; case_match; [done|];
    rewrite lookup_insert_ne; [done | congruence].
Qed.



(** ** Remote launches and the module file *)

Lemma frame_refl st : frame st st.
Proof. repeat split. apply quietly_after_refl. Qed.

Lemma frame_trans st1 st2 st3 : frame st1 st2 → frame st2 st3 → frame st1 st3.
Proof.
  intros (A1 & H1 & S1 & Q1) (A2 & H2 & S2 & Q2).
  repeat split; try congruence. by eapply quietly_after_trans.
Qed.

Lemma convert_normalises env path st :
  wp (SSHModuleManager.convert_line_endings_to_unix env path) st (λ r st',
    frame st st' ∧ fs st' = normalised env path (fs st)).
Proof.
  eapply wp_mono; [apply convert_line_endings_to_unix_frame|].
  intros r st1 (? & ? & ? & ? & H). split; [done|].
  unfold normalised. by repeat case_match.
Qed.

Lemma transfer_file_normalises env ssh path st :
  wp (SSHModuleManager.transfer_file env ssh path) st (λ r st',
    frame st st' ∧ fs st' = normalised env path (fs st)).
Proof.
  unfold SSHModuleManager.transfer_file.
  wp_step. wp_step. wp_step.
  { wp_step. state_simpl. split; [repeat split; quiet|].
    apply negb_true_iff, bool_decide_eq_false in Heqb.
    unfold normalised. destruct (fs st !! path); [|done].
    exfalso. apply Heqb. eauto. }
  wp_step. eapply wp_mono; [apply convert_normalises|].
  intros r st1 [F1 E1]. cbn beta.
  assert (∀ (r : result ()) st2, frame st1 st2 ∧ fs st2 = fs st1 →
            frame st st2 ∧ fs st2 = normalised env path (fs st)) as Hk.
  { intros _ st2 [F2 E2]. split; [by eapply frame_trans | congruence]. }
  destruct r; [|apply (Hk (Raise e)); split; [apply frame_refl | done]].
  eapply wp_mono; [|exact Hk].
  apply wp_try_except.
  repeat wp_step; state_simpl; (split; [repeat split; try done; quiet | done]).
Qed.

Lemma run_remote_script_frame env ssh name args st :
  wp (SSHModuleManager.run_remote_script env ssh name args) st (λ r st',
    frame st st' ∧ fs st' = fs st).
Proof.
  unfold SSHModuleManager.run_remote_script.
  repeat wp_step; state_simpl; (split; [repeat split; try done; quiet | done]).
Qed.

Lemma write_text_frame env path text st :
  wp (ModuleManager.write_text env path text) st (λ r st',
    frame st st'
    ∧ (fs st' = fs st
       ∨ ∃ logfile data, path = Some logfile
                         ∧ fs st' = <[logfile := data]> (fs st))).
Proof.
  unfold ModuleManager.write_text.
  repeat wp_step; state_simpl; (split; [repeat split; quiet|]);
    try (by left); right; eexists _, _; (split; [reflexivity|]).
  - by rewrite lookup_insert_eq, insert_insert_eq.
  - done.
Qed.

(** What a remote launch does, whatever its outcome: the engine (its table
    of running instances included), the SSH objects and the process count
    are untouched and no termination request is sent; the module file is
    normalised before each of the two uploads, and the declared log file is
    the only other file that can change. *)
Lemma launch_module_remote env name args st ssh :
  ssh_manager (manager st) = Some ssh →
  let path := path_join (modules_dir (manager st)) name in
  let once := normalised env path (fs st) in
  let twice := normalised env path once in
  wp (ModuleManager.launch_module env name args) st (λ r st',
    frame st st'
    ∧ (fs st' = fs st ∨ fs st' = once ∨ fs st' = twice
       ∨ ∃ logfile data,
           source_lines (fs st) path ≫= ModuleManager.parse_logfile_path_in
             = Ok (Some logfile)
           ∧ fs st' = <[logfile := data]> twice)).
Proof.
  intros Hs path once twice. unfold ModuleManager.launch_module.
  wp_step. wp_step. cbn zeta. fold path. rewrite Hs.
  wp_step. wp_step. wp_step.
  { repeat wp_step. state_simpl. split; [repeat split; quiet | by left]. }
  wp_step. wp_step. wp_step; [|split; [apply frame_refl | by left]].
  wp_step. wp_step. wp_step; [|split; [apply frame_refl | by left]].
  wp_step; [|repeat wp_step; state_simpl; split; [repeat split; quiet | by left]].
  wp_step.
  eapply wp_mono; [apply transfer_file_normalises|].
  intros r1 st1 [F1 E1]. cbn beta. fold once in E1.
  destruct r1; [|split; [done | by right; left]].
  wp_step.
  eapply wp_mono; [apply transfer_file_normalises|].
  intros r2 st2 [F2 E2]. cbn beta. rewrite E1 in E2. fold twice in E2.
  pose proof (frame_trans _ _ _ F1 F2) as F12.
  destruct r2; [|split; [done | by right; right; left]].
  wp_step.
  eapply wp_mono; [apply run_remote_script_frame|].
  intros r3 st3 [F3 E3]. cbn beta. rewrite E2 in E3.
  pose proof (frame_trans _ _ _ F12 F3) as F13.
  destruct r3; [|split; [done | by right; right; left]].
  wp_step. wp_step. wp_step.
  eapply wp_mono; [apply write_text_frame|].
  intros r4 st4 [F4 E4]. cbn beta. state_simpl. rewrite E3 in E4.
  assert (frame st st4) as F14.
  { eapply frame_trans; [exact F13|]. eapply frame_trans; [|exact F4].
    repeat split. quiet. }
  destruct r4; [wp_step|]; (split; [done|]);
    (destruct E4 as [->|(logfile & data & -> & ->)];
      [by right; right; left | right; right; right; by exists logfile, data]).
Qed.

Lemma normalised_id env path files b :
  files !! path = Some b → has_infix [CR; LF] b = false →
  normalised env path files = files.
Proof.
  intros Hb Hc. unfold normalised.
  repeat case_match; try done.
  match goal with
  | H : files !! path = Some ?x |- context [unix_endings ?x] =>
      assert (x = b) as -> by congruence
  end.
  rewrite unix_endings_id by done. by apply insert_id.
Qed.

(** C2 (counterexample). With a session connected, a launch of the
    installed module [m.sh], whose file has a DOS line ending, rewrites the
    file: the bytes after the launch are not the bytes before. *)
Lemma remote_launch_rewrites_module :
  let st := Sample.connected_state [] Sample.with_logfile in
  let st' := (ModuleManager.launch_module (Sample.quiet []) (py "m.sh") [] st).2 in
  fs st !! Sample.m_sh = Some Sample.dos_source
  ∧ fs st' !! Sample.m_sh
    = Some (py "# Logfile: logs/a:b.log" ++ [LF] ++ py "echo hi" ++ [LF])
  ∧ fs st' !! Sample.m_sh ≠ fs st !! Sample.m_sh.
Proof.
  vm_compute. split; [reflexivity|]. split; [reflexivity | discriminate].
Qed.

(** The module file after a normalisation: as it was, or normalised. *)
Lemma normalised_lookup env path files b s :
  files !! path = Some b →
  utf8_decode b = Some s →
  normalised env path files !! path
  = Some (match open_write_fault env path with
          | Some _ => b
          | None => unix_endings b
          end).
Proof.
  intros Hb Hs. unfold normalised. rewrite Hb, Hs.
  destruct (open_write_fault env path); [done|]. apply lookup_insert_eq.
Qed.

(** C2 (amended). For a module file that is valid UTF-8 and is not used as
    its own log file: a local launch writes nothing to the file, its bytes
    after the launch are its bytes before; a remote launch rewrites the
    file with normalised line endings before each of its two uploads, so
    the bytes after it are the bytes before with the carriage returns that
    stand before a line feed removed not at all, once or twice, and are
    the bytes before when the file holds no CR LF pair. The file counts as
    not used as its own log file when the declared log path, if there is
    one, and the path of the module are distinct relative paths in normal
    form (for a local launch this matters for a silent module only, whose
    process is given the log file as its output). *)
Theorem launch_module_source_bytes env name args st b s :
  let path := path_join (modules_dir (manager st)) name in
  let lines := readlines (translate_newlines s) in
  let st' := (ModuleManager.launch_module env name args st).2 in
  fs st !! path = Some b →
  utf8_decode b = Some s →
  (ssh_manager (manager st) = None →
   (ModuleManager.parse_silent_flag_in lines = Ok true →
    ∀ logfile, ModuleManager.parse_logfile_path_in lines = Ok (Some logfile) →
               apart logfile path) →
   fs st' !! path = Some b)
  ∧ ((∀ logfile, ModuleManager.parse_logfile_path_in lines = Ok (Some logfile) →
                 apart logfile path) →
     (fs st' !! path = Some b
      ∨ fs st' !! path = Some (unix_endings b)
      ∨ fs st' !! path = Some (unix_endings (unix_endings b)))
     ∧ (¬ contains [CR; LF] b → fs st' !! path = Some b)).
Proof.
  intros path lines st' Hb Hs.
  assert (ssh_manager (manager st) = None → fs st' !! path = Some b) as Hlocal.
  { intros Hl. pose proof (launch_module_local env name args st Hl) as H.
    unfold wp in H. fold st' in H. destruct H as (Hfs & _). by apply Hfs. }
  split; [by intros Hl _; apply Hlocal|].
  intros Hlog.
  destruct (ssh_manager (manager st)) as [ssh|] eqn:Hssh;
    [|by split; [left | intros _]; apply Hlocal].
  pose proof (launch_module_remote env name args st ssh Hssh) as H.
  unfold wp in H. fold st' path in H. cbv zeta in H. destruct H as (_ & H).
  assert (source_lines (fs st) path = Ok lines) as Hsl.
  { unfold source_lines. by rewrite Hb, Hs. }
  pose proof (normalised_lookup env path (fs st) b s Hb Hs) as H1.
  set (once := normalised env path (fs st)) in *.
  assert (∃ s1, utf8_decode (match open_write_fault env path with
                             | Some _ => b
                             | None => unix_endings b
                             end) = Some s1) as [s1 Hs1].
  { destruct (open_write_fault env path); [by eauto|].
    eexists. by apply utf8_decode_unix_endings. }
  pose proof (normalised_lookup env path once _ s1 H1 Hs1) as H2.
  set (twice := normalised env path once) in *.
  assert (∀ files, files = fs st ∨ files = once ∨ files = twice →
            (files !! path = Some b
             ∨ files !! path = Some (unix_endings b)
             ∨ files !! path = Some (unix_endings (unix_endings b)))
            ∧ (¬ contains [CR; LF] b → files !! path = Some b)) as Hcases.
  { intros files Hf. split.
    - destruct Hf as [->|[->| ->]]; [by left| |].
      + rewrite H1. destruct (open_write_fault env path); eauto.
      + rewrite H2. destruct (open_write_fault env path); eauto.
    - intros Hc%has_infix_false.
      destruct Hf as [->|[->| ->]]; [done| |].
      + rewrite H1. destruct (open_write_fault env path); [done|].
        by rewrite (unix_endings_id b).
      + rewrite H2. destruct (open_write_fault env path); [done|].
        by rewrite !(unix_endings_id b). }
  destruct H as [->|[->|[->|(logfile & data & Hp & ->)]]];
    [apply Hcases; eauto .. |].
  rewrite Hsl in Hp. cbn in Hp. destruct (Hlog logfile Hp) as (_ & _ & Hne).
  rewrite lookup_insert_ne by done. apply Hcases. eauto.
Qed.

Lemma launch_module_source_bytes_witness :
  (let st := Engine.initial Sample.silent in
   fs (ModuleManager.launch_module (Sample.quiet []) (py "m.sh") [] st).2
     !! Sample.m_sh = Some Sample.silent_source)
  ∧ (let st := Sample.connected_state [] Sample.with_logfile in
     let st' := (ModuleManager.launch_module (Sample.quiet []) (py "m.sh") []
                   st).2 in
     fs st' !! Sample.m_sh = Some Sample.dos_source
     ∨ fs st' !! Sample.m_sh = Some (unix_endings Sample.dos_source)
     ∨ fs st' !! Sample.m_sh
       = Some (unix_endings (unix_endings Sample.dos_source)))
  ∧ (let st := Sample.connected_state [] Sample.with_unix_logfile in
     fs (ModuleManager.launch_module (Sample.quiet []) (py "m.sh") [] st).2
       !! Sample.m_sh = Some Sample.unix_source).
Proof.
  split; [|split].
  - apply (proj1 (launch_module_source_bytes (Sample.quiet []) (py "m.sh") []
                    (Engine.initial Sample.silent) Sample.silent_source
                    Sample.silent_source eq_refl eq_refl)).
    + reflexivity.
    + intros _ logfile [= <-]. repeat split; vm_compute; congruence.
  - apply (proj2 (launch_module_source_bytes (Sample.quiet []) (py "m.sh") []
                    (Sample.connected_state [] Sample.with_logfile)
                    Sample.dos_source Sample.dos_source eq_refl eq_refl)).
    intros logfile [= <-]. repeat split; vm_compute; congruence.
  - apply (proj2 (launch_module_source_bytes (Sample.quiet []) (py "m.sh") []
                    (Sample.connected_state [] Sample.with_unix_logfile)
                    Sample.unix_source Sample.unix_source eq_refl eq_refl)).
    + intros logfile [= <-]. repeat split; vm_compute; congruence.
    + apply has_infix_false. vm_compute. reflexivity.
Defined.

(** ** Dispatch after a disconnect *)

(** [handle_ssh_disconnect] clears the engine's own field and the client of
    the SSH manager object, and leaves the module manager, with its
    reference to that object, as it was. *)
Lemma disconnect_keeps_module_manager st :
  manager (Engine.handle_ssh_disconnect st).2 = manager st.
Proof.
  unfold Engine.handle_ssh_disconnect, SSHModuleManager.disconnect,
    SSHModuleManager.deref, SSHModuleManager.update. munfold.
  cbn beta iota zeta.
  destruct (engine_ssh_manager (app st)) as [ssh|]; [|done].
  destruct (heap st !! ssh) as [o|]; [|done]. cbn.
  destruct (ssh_client o); done.
Qed.

(** After [handle_ssh_disconnect] the toolbar shows no connection. *)
Lemma disconnect_disconnects st :
  Engine.connected (Engine.handle_ssh_disconnect st).2 = false.
Proof.
  unfold Engine.connected, Engine.handle_ssh_disconnect,
    SSHModuleManager.disconnect, SSHModuleManager.deref,
    SSHModuleManager.update. munfold.
  cbn beta iota zeta.
  destruct (engine_ssh_manager (app st)) as [ssh|] eqn:E; [|by cbn; rewrite E].
  destruct (heap st !! ssh) as [o|] eqn:Ho; cbn; [|by rewrite E, Ho].
  destruct (ssh_client o); cbn; done.
Qed.

(** Once a connect has given the module manager an SSH manager, a
    disconnect does not bring launches back to the local path: whatever
    the module, a launch after it starts no local process and records no
    running instance. *)
Lemma launch_after_disconnect_is_remote env name args st ssh :
  ssh_manager (manager st) = Some ssh →
  let st1 := (Engine.handle_ssh_disconnect st).2 in
  let st2 := (ModuleManager.launch_module env name args st1).2 in
  Engine.connected st1 = false
  ∧ spawned st2 = spawned st1
  ∧ table st2 = table st1.
Proof.
  intros Hs st1 st2. split; [apply disconnect_disconnects|].
  assert (ssh_manager (manager st1) = Some ssh) as Hs1.
  { unfold st1. by rewrite disconnect_keeps_module_manager. }
  pose proof (launch_module_remote env name args st1 ssh Hs1) as H.
  unfold wp in H. destruct H as ((Ha & _ & Hp & _) & _).
  fold st2 in Ha, Hp. by rewrite Ha.
Qed.

(** C1 (the code at the failing input). After [connect u@h] and
    [disconnect], no session is connected and the engine holds no SSH
    manager, but the module manager still does: a launch of the installed
    module [m.sh] takes the remote path. Both uploads fail, the remote
    command raises [AttributeError] on the closed client, and no local
    process is started. *)
Theorem launch_after_disconnect_takes_remote_path :
  let st := Sample.disconnected_state [] Sample.plain in
  let r := ModuleManager.launch_module (Sample.quiet []) (py "m.sh") [] st in
  Engine.connected st = false
  ∧ engine_ssh_manager (app st) = None
  ∧ ssh_manager (manager st) = Some 0%nat
  ∧ r.1 = Raise AttributeError
  ∧ spawned r.2 = 0%nat
  ∧ table r.2 = ∅
  ∧ trace r.2 = trace st
      ++ [EPrint (py "Error transferring file: AttributeError");
          EPrint (py "Error transferring file: AttributeError")].
Proof. vm_compute. repeat split; reflexivity. Qed.

(** ** What launch returns and what it raises *)




(** * Further properties *)

Abbreviation unmarked marker lines :=
  (Forall (λ line, startswith line marker = false) lines).

(** ** More on strings *)

Lemma lstrip_id s :
  (∀ c, head s = Some c → is_space c = false) → lstrip s = s.
Proof.
  destruct s as [|c r]; [done|]. intros H. apply lstrip_nonspace. by apply H.
Qed.

Lemma rstrip_id s :
  (∀ c, last s = Some c → is_space c = false) → rstrip s = s.
Proof.
  intros H. unfold rstrip. rewrite lstrip_id, reverse_involutive; [done|].
  intros c. rewrite head_reverse. apply H.
Qed.

Lemma strip_strip s : strip (strip s) = strip s.
Proof.
  unfold strip at 1. rewrite lstrip_id by apply strip_head.
  apply rstrip_id, strip_last.
Qed.

Lemma split_piece_elem sep s w x : w ∈ split sep s → x ∈ w → x ∈ s.
Proof.
  revert w. induction s as [|c r IH]; intros w; simpl.
  - intros ->%list_elem_of_singleton. by intros ?%not_elem_of_nil.
  - destruct (Z.eqb_spec c sep) as [->|Hne].
    + intros [->|Hw]%elem_of_cons; [by intros ?%not_elem_of_nil|].
      intros Hx. right. by eapply IH.
    + destruct (split_nonempty sep r) as (v & vs & E). rewrite E in *.
      intros [->|Hw]%elem_of_cons.
      * intros [->|Hx]%elem_of_cons; [by left|]. right.
        apply (IH v); [by left | done].
      * intros Hx. right. apply (IH w); [by right | done].
Qed.

Lemma split1_found sep a b : sep ∉ a → split1 sep (a ++ sep :: b) = [a; b].
Proof.
  induction a as [|c a IH]; simpl; intros Hn.
  - by rewrite Z.eqb_refl.
  - apply not_elem_of_cons in Hn as [Hc Ha].
    destruct (Z.eqb_spec sep c) as [->|_]; [done|].
    destruct (Z.eqb_spec c sep) as [->|_]; [done|]. by rewrite IH.
Qed.

Lemma split1_missing sep s : sep ∉ s → split1 sep s = [s].
Proof.
  induction s as [|c s IH]; simpl; intros Hn; [done|].
  apply not_elem_of_cons in Hn as [Hc Ha].
  destruct (Z.eqb_spec c sep) as [->|_]; [done|]. by rewrite IH.
Qed.

Lemma elem_split sep (s : list Z) :
  sep ∈ s → ∃ a b, s = a ++ sep :: b ∧ sep ∉ a.
Proof.
  induction s as [|c s IH]; [by intros ?%not_elem_of_nil|].
  destruct (decide (c = sep)) as [->|Hne].
  - intros _. exists [], s. split; [done | apply not_elem_of_nil].
  - intros [?|Hin]%elem_of_cons; [congruence|].
    destruct (IH Hin) as (a & b & -> & Ha). exists (c :: a), b.
    split; [done|]. apply not_elem_of_cons. split; [congruence | done].
Qed.

(** [s.split(sep, 1)] gives the string itself, or the text before the first
    separator and the text after it. *)
Lemma split1_cases sep s :
  ((sep ∉ s) ∧ split1 sep s = [s])
  ∨ ∃ a b, s = a ++ sep :: b ∧ (sep ∉ a) ∧ split1 sep s = [a; b].
Proof.
  destruct (decide (sep ∈ s)) as [Hin|Hn].
  - right. destruct (elem_split sep s Hin) as (a & b & -> & Ha).
    exists a, b. by rewrite split1_found.
  - left. by rewrite split1_missing.
Qed.

(** ** The descriptor parsers *)

Lemma parse_help_info_in_total lines help_info :
  ∃ m, ModuleManager.parse_help_info_in lines help_info = Ok m.
Proof.
  revert help_info. induction lines as [|line rest IH]; intros help_info;
    cbn [ModuleManager.parse_help_info_in]; [eauto|].
  destruct (startswith line _) eqn:E; [|done].
  destruct (split1_cases ModuleManager.COLON line)
    as [[Hn _]|(a & info & -> & Ha & ->)].
  { exfalso. apply Hn. eapply startswith_elem; [exact E|].
    apply (bool_decide_unpack _). by vm_compute. }
  cbn.
  destruct (split1_cases ModuleManager.HYPHEN info)
    as [[_ ->]|(key & desc & -> & _ & ->)]; cbn; apply IH.
Qed.

Lemma parse_inputs_in_total lines :
  ∃ v, ModuleManager.parse_inputs_in lines = Ok v.
Proof.
  induction lines as [|line rest IH];
    cbn [ModuleManager.parse_inputs_in]; [eauto|].
  destruct (startswith line _) eqn:E; [|done].
  destruct (marker_field _ _ E) as [w ->]; [colon_in|]. simpl. eauto.
Qed.

(** X1. On a module file that exists and decodes, every descriptor parser
    returns a value and leaves the state as it was: the index [[1]] and the
    unpacking of a split never fail. *)
Theorem descriptor_parsers_return st path b s :
  fs st !! path = Some b →
  utf8_decode b = Some s →
  (∃ v, ModuleManager.parse_silent_flag path st = (Ok v, st))
  ∧ (∃ v, ModuleManager.parse_follow_log_flag path st = (Ok v, st))
  ∧ (∃ v, ModuleManager.parse_logfile_path path st = (Ok v, st))
  ∧ (∃ v, ModuleManager.parse_dependencies path st = (Ok v, st))
  ∧ (∃ v, ModuleManager.parse_inputs path st = (Ok v, st))
  ∧ (∃ v, ModuleManager.parse_help_info path st = (Ok v, st)).
Proof.
  intros Hb Hs.
  assert (read_lines path st = (Ok (readlines (translate_newlines s)), st))
    as Hr.
  { rewrite read_lines_eq. unfold source_lines. by rewrite Hb, Hs. }
  unfold ModuleManager.parse_silent_flag, ModuleManager.parse_follow_log_flag,
    ModuleManager.parse_logfile_path, ModuleManager.parse_dependencies,
    ModuleManager.parse_inputs, ModuleManager.parse_help_info.
  munfold. rewrite Hr. cbn beta iota.
  set (lines := readlines (translate_newlines s)).
  destruct (parse_silent_flag_in_total lines) as [v1 ->].
  destruct (parse_follow_log_flag_in_total lines) as [v2 ->].
  destruct (parse_logfile_path_in_total lines) as [v3 ->].
  destruct (parse_dependencies_in_total lines) as [v4 ->].
  destruct (parse_inputs_in_total lines) as [v5 ->].
  destruct (parse_help_info_in_total lines ∅) as [v6 ->].
  repeat split; eauto.
Qed.

Lemma descriptor_parsers_return_witness :
  let st := Engine.initial Sample.with_logfile in
  (∃ v, ModuleManager.parse_silent_flag Sample.m_sh st = (Ok v, st))
  ∧ (∃ v, ModuleManager.parse_follow_log_flag Sample.m_sh st = (Ok v, st))
  ∧ (∃ v, ModuleManager.parse_logfile_path Sample.m_sh st = (Ok v, st))
  ∧ (∃ v, ModuleManager.parse_dependencies Sample.m_sh st = (Ok v, st))
  ∧ (∃ v, ModuleManager.parse_inputs Sample.m_sh st = (Ok v, st))
  ∧ (∃ v, ModuleManager.parse_help_info Sample.m_sh st = (Ok v, st)).
Proof.
  intros st.
  apply (descriptor_parsers_return st Sample.m_sh Sample.dos_source
           Sample.dos_source); vm_compute; reflexivity.
Defined.

Lemma parse_silent_flag_in_skip pre rest :
  unmarked (py "# Silent:") pre →
  ModuleManager.parse_silent_flag_in (pre ++ rest)
  = ModuleManager.parse_silent_flag_in rest.
Proof.
  induction 1 as [|line pre Hl _ IH]; [done|].
  cbv beta in Hl. rewrite <- app_comm_cons.
  cbn [ModuleManager.parse_silent_flag_in]. by rewrite Hl.
Qed.

Lemma parse_follow_log_flag_in_skip pre rest :
  unmarked (py "# Follow_log:") pre →
  ModuleManager.parse_follow_log_flag_in (pre ++ rest)
  = ModuleManager.parse_follow_log_flag_in rest.
Proof.
  induction 1 as [|line pre Hl _ IH]; [done|].
  cbv beta in Hl. rewrite <- app_comm_cons.
  cbn [ModuleManager.parse_follow_log_flag_in]. by rewrite Hl.
Qed.

Lemma parse_logfile_path_in_skip pre rest :
  unmarked (py "# Logfile:") pre →
  ModuleManager.parse_logfile_path_in (pre ++ rest)
  = ModuleManager.parse_logfile_path_in rest.
Proof.
  induction 1 as [|line pre Hl _ IH]; [done|].
  cbv beta in Hl. rewrite <- app_comm_cons.
  cbn [ModuleManager.parse_logfile_path_in]. by rewrite Hl.
Qed.

Lemma parse_inputs_in_skip pre rest :
  unmarked (py "# Inputs:") pre →
  ModuleManager.parse_inputs_in (pre ++ rest)
  = ModuleManager.parse_inputs_in rest.
Proof.
  induction 1 as [|line pre Hl _ IH]; [done|].
  cbv beta in Hl. rewrite <- app_comm_cons.
  cbn [ModuleManager.parse_inputs_in]. by rewrite Hl.
Qed.

(** X2. The flag, path and list parsers stop at the first line that starts
    with their marker: the lines before it (which do not start with the
    marker) and every line after it, marker lines included, have no effect
    on the result. *)
Theorem first_marker_line_decides pre line post :
  (unmarked (py "# Silent:") pre → startswith line (py "# Silent:") = true →
   ModuleManager.parse_silent_flag_in (pre ++ line :: post)
   = ModuleManager.parse_silent_flag_in [line])
  ∧ (unmarked (py "# Follow_log:") pre →
     startswith line (py "# Follow_log:") = true →
     ModuleManager.parse_follow_log_flag_in (pre ++ line :: post)
     = ModuleManager.parse_follow_log_flag_in [line])
  ∧ (unmarked (py "# Logfile:") pre →
     startswith line (py "# Logfile:") = true →
     ModuleManager.parse_logfile_path_in (pre ++ line :: post)
     = ModuleManager.parse_logfile_path_in [line])
  ∧ (unmarked (py "# Dependencies:") pre →
     startswith line (py "# Dependencies:") = true →
     ModuleManager.parse_dependencies_in (pre ++ line :: post)
     = ModuleManager.parse_dependencies_in [line])
  ∧ (unmarked (py "# Inputs:") pre →
     startswith line (py "# Inputs:") = true →
     ModuleManager.parse_inputs_in (pre ++ line :: post)
     = ModuleManager.parse_inputs_in [line]).
Proof.
  repeat split; intros Hpre Hline.
  - rewrite parse_silent_flag_in_skip by done.
    cbn [ModuleManager.parse_silent_flag_in]. by rewrite Hline.
  - rewrite parse_follow_log_flag_in_skip by done.
    cbn [ModuleManager.parse_follow_log_flag_in]. by rewrite Hline.
  - rewrite parse_logfile_path_in_skip by done.
    cbn [ModuleManager.parse_logfile_path_in]. by rewrite Hline.
  - rewrite parse_dependencies_in_skip by done.
    cbn [ModuleManager.parse_dependencies_in]. by rewrite Hline.
  - rewrite parse_inputs_in_skip by done.
    cbn [ModuleManager.parse_inputs_in]. by rewrite Hline.
Qed.

Lemma first_marker_line_decides_witness :
  ModuleManager.parse_silent_flag_in
    ([py "echo"] ++ py "# Silent: TRUE " :: [py "# Silent: false"])
  = ModuleManager.parse_silent_flag_in [py "# Silent: TRUE "]
  ∧ ModuleManager.parse_follow_log_flag_in
      ([py "echo"] ++ py "# Follow_log: true" :: [py "# Follow_log: no"])
    = ModuleManager.parse_follow_log_flag_in [py "# Follow_log: true"]
  ∧ ModuleManager.parse_logfile_path_in
      ([py "echo"] ++ py "# Logfile: a.log" :: [py "# Logfile: b.log"])
    = ModuleManager.parse_logfile_path_in [py "# Logfile: a.log"]
  ∧ ModuleManager.parse_dependencies_in
      ([py "echo"] ++ py "# Dependencies: git" :: [py "# Dependencies: nmap"])
    = ModuleManager.parse_dependencies_in [py "# Dependencies: git"]
  ∧ ModuleManager.parse_inputs_in
      ([py "echo"] ++ py "# Inputs: host" :: [py "# Inputs: port"])
    = ModuleManager.parse_inputs_in [py "# Inputs: host"].
Proof.
  split; [|split; [|split; [|split]]].
  - apply (first_marker_line_decides [py "echo"] (py "# Silent: TRUE ")
             [py "# Silent: false"]); [repeat constructor | reflexivity].
  - apply (first_marker_line_decides [py "echo"] (py "# Follow_log: true")
             [py "# Follow_log: no"]); [repeat constructor | reflexivity].
  - apply (first_marker_line_decides [py "echo"] (py "# Logfile: a.log")
             [py "# Logfile: b.log"]); [repeat constructor | reflexivity].
  - apply (first_marker_line_decides [py "echo"] (py "# Dependencies: git")
             [py "# Dependencies: nmap"]); [repeat constructor | reflexivity].
  - apply (first_marker_line_decides [py "echo"] (py "# Inputs: host")
             [py "# Inputs: port"]); [repeat constructor | reflexivity].
Defined.

(** A comma-separated field, split and stripped: no name has a comma in
    it or white space around it, and none has a character the field has
    not. *)
Lemma stripped_names field :
  Forall (λ name, strip name = name ∧ (ModuleManager.COMMA ∉ name)
                  ∧ ∀ x, x ∈ name → x ∈ field)
         (strip <$> split ModuleManager.COMMA field).
Proof.
  apply Forall_fmap, Forall_forall. intros w Hw. cbn.
  split; [apply strip_strip|]. split.
  - intros Hin%strip_elem. by eapply split_pieces_no_sep.
  - intros x Hx%strip_elem. by eapply split_piece_elem.
Qed.

(** X3. The names [parse_dependencies] and [parse_inputs] return are clean:
    each has no white space around it and holds neither a comma nor a
    colon. The list is empty exactly when no line starts with the marker:
    a marker line always yields at least one name, possibly empty. *)
Theorem parsed_names_are_clean lines :
  (∃ names, ModuleManager.parse_dependencies_in lines = Ok names
     ∧ Forall (λ name, strip name = name ∧ (ModuleManager.COMMA ∉ name)
                       ∧ ModuleManager.COLON ∉ name) names
     ∧ (names = [] ↔ unmarked (py "# Dependencies:") lines))
  ∧ (∃ names, ModuleManager.parse_inputs_in lines = Ok names
       ∧ Forall (λ name, strip name = name ∧ (ModuleManager.COMMA ∉ name)
                         ∧ ModuleManager.COLON ∉ name) names
       ∧ (names = [] ↔ unmarked (py "# Inputs:") lines)).
Proof.
  split.
  - induction lines as [|line rest (names & E & Hc & Hu)];
      cbn [ModuleManager.parse_dependencies_in].
    { exists []. repeat split; done. }
    destruct (startswith line _) eqn:Hl.
    + destruct (marker_field _ _ Hl) as [w Hw]; [colon_in|]. rewrite Hw.
      eexists. split; [reflexivity|]. split.
      * eapply Forall_impl; [apply stripped_names|].
        intros name (? & ? & Hsub). repeat split; try done.
        intros Hin%Hsub. revert Hin. eapply split_pieces_no_sep.
        unfold index in Hw. destruct (split _ _ !! 1%nat) eqn:E1; [|done].
        injection Hw as <-. by eapply list_elem_of_lookup_2.
      * split.
        -- destruct (split_nonempty ModuleManager.COMMA w) as (? & ? & ->).
           done.
        -- intros Hf. apply Forall_cons_1 in Hf as [Hf _]. cbv beta in Hf.
           congruence.
    + exists names. repeat split; try done.
      * intros Hn. constructor; [done | by apply Hu].
      * intros Hf. apply Hu. by apply Forall_cons_1 in Hf as [_ ?].
  - induction lines as [|line rest (names & E & Hc & Hu)];
      cbn [ModuleManager.parse_inputs_in].
    { exists []. repeat split; done. }
    destruct (startswith line _) eqn:Hl.
    + destruct (marker_field _ _ Hl) as [w Hw]; [colon_in|]. rewrite Hw.
      eexists. split; [reflexivity|]. split.
      * eapply Forall_impl; [apply stripped_names|].
        intros name (? & ? & Hsub). repeat split; try done.
        intros Hin%Hsub. revert Hin. eapply split_pieces_no_sep.
        unfold index in Hw. destruct (split _ _ !! 1%nat) eqn:E1; [|done].
        injection Hw as <-. by eapply list_elem_of_lookup_2.
      * split.
        -- destruct (split_nonempty ModuleManager.COMMA w) as (? & ? & ->).
           done.
        -- intros Hf. apply Forall_cons_1 in Hf as [Hf _]. cbv beta in Hf.
           congruence.
    + exists names. repeat split; try done.
      * intros Hn. constructor; [done | by apply Hu].
      * intros Hf. apply Hu. by apply Forall_cons_1 in Hf as [_ ?].
Qed.

Lemma parse_help_info_in_app lines1 lines2 help_info :
  ModuleManager.parse_help_info_in (lines1 ++ lines2) help_info
  = ModuleManager.parse_help_info_in lines1 help_info
    ≫= ModuleManager.parse_help_info_in lines2.
Proof.
  revert help_info. induction lines1 as [|line rest IH]; intros help_info;
    [done|].
  rewrite <- app_comm_cons. cbn [ModuleManager.parse_help_info_in].
  destruct (startswith line _); [|apply IH].
  destruct (unpack2 _) as [[? info]|]; [|done]. cbn.
  case_bool_decide.
  - destruct (unpack2 _) as [[key desc]|]; [|done]. cbn. apply IH.
  - destruct (index _ _); [|done]. cbn. apply IH.
Qed.

Lemma parse_help_info_in_unmarked lines help_info :
  unmarked (py "# Help:") lines →
  ModuleManager.parse_help_info_in lines help_info = Ok help_info.
Proof.
  induction 1 as [|line rest Hl _ IH]; [done|]. cbv beta in Hl.
  cbn [ModuleManager.parse_help_info_in]. by rewrite Hl.
Qed.

(** The entry one Help line writes. *)
Lemma parse_help_info_in_line info rest help_info :
  ModuleManager.parse_help_info_in ((py "# Help:" ++ info) :: rest) help_info
  = ModuleManager.parse_help_info_in rest
      (match split1 ModuleManager.HYPHEN info with
       | [key; desc] => <[strip key := strip desc]> help_info
       | _ => <[strip info := py "No description available"]> help_info
       end).
Proof.
  cbn [ModuleManager.parse_help_info_in].
  rewrite (proj2 (startswith_app _ _)) by eauto.
  change (py "# Help:" ++ info)
    with (py "# Help" ++ ModuleManager.COLON :: info).
  rewrite split1_found by (apply (bool_decide_unpack _); by vm_compute).
  cbn.
  destruct (split1_cases ModuleManager.HYPHEN info)
    as [[_ ->]|(key & desc & -> & _ & ->)]; reflexivity.
Qed.

(** X4. A Help line defines its key whatever the lines before it said
    about that key: with no Help line after it, the parsed description of
    the key is the one of this line (the last line wins); the key is the
    text before the first hyphen, stripped, and a line without a hyphen
    gets the fixed description. *)
Theorem help_line_defines_its_key before key desc after :
  ModuleManager.HYPHEN ∉ key →
  unmarked (py "# Help:") after →
  (∃ m, ModuleManager.parse_help_info_in
          (before ++ (py "# Help:" ++ key ++ ModuleManager.HYPHEN :: desc)
                  :: after) ∅ = Ok m
        ∧ m !! strip key = Some (strip desc))
  ∧ (∃ m, ModuleManager.parse_help_info_in
            (before ++ (py "# Help:" ++ key) :: after) ∅ = Ok m
          ∧ m !! strip key = Some (py "No description available")).
Proof.
  intros Hk Ha.
  destruct (parse_help_info_in_total before ∅) as [m0 E0].
  split.
  - rewrite parse_help_info_in_app, E0. cbn [mbind result_bind].
    rewrite parse_help_info_in_line, split1_found by done.
    rewrite parse_help_info_in_unmarked by done.
    eexists. split; [reflexivity | apply lookup_insert_eq].
  - rewrite parse_help_info_in_app, E0. cbn [mbind result_bind].
    rewrite parse_help_info_in_line, split1_missing by done.
    rewrite parse_help_info_in_unmarked by done.
    eexists. split; [reflexivity | apply lookup_insert_eq].
Qed.

Lemma help_line_defines_its_key_witness :
  (∃ m, ModuleManager.parse_help_info_in
          ([py "# Help: host - old"]
           ++ (py "# Help:" ++ py " host " ++ ModuleManager.HYPHEN :: py " new ")
           :: [py "echo"]) ∅ = Ok m
        ∧ m !! strip (py " host ") = Some (strip (py " new ")))
  ∧ (∃ m, ModuleManager.parse_help_info_in
            ([py "# Help: host - old"] ++ (py "# Help:" ++ py " host ")
             :: [py "echo"]) ∅ = Ok m
          ∧ m !! strip (py " host ") = Some (py "No description available")).
Proof.
  apply help_line_defines_its_key.
  - apply (bool_decide_unpack _). by vm_compute.
  - repeat constructor.
Defined.

Lemma help_keys_from lines help_info m key :
  ModuleManager.parse_help_info_in lines help_info = Ok m →
  is_Some (m !! key) →
  is_Some (help_info !! key)
  ∨ (strip key = key ∧ (ModuleManager.HYPHEN ∉ key)).
Proof.
  revert help_info. induction lines as [|line rest IH]; intros help_info;
    cbn [ModuleManager.parse_help_info_in].
  { intros [= ->]. by left. }
  destruct (startswith line _) eqn:E; [|apply IH].
  destruct (split1_cases ModuleManager.COLON line)
    as [[_ ->]|(a & info & -> & Ha & ->)]; [done|]. cbn.
  destruct (split1_cases ModuleManager.HYPHEN info)
    as [[Hn ->]|(k & desc & -> & Hk & ->)]; cbn; intros Hm Hin;
    (destruct (IH _ Hm Hin) as [Hi|]; [|by right]);
    apply lookup_insert_is_Some in Hi as [<-|[_ Hi]]; try (by left);
    right; (split; [apply strip_strip|]); by intros ?%strip_elem.
Qed.

(** X5. Every key of the help entries parsed from a file is clean: it has
    no white space around it and no hyphen in it. A name that holds a
    hyphen is never among the keys. *)
Theorem help_keys_are_clean lines m key :
  ModuleManager.parse_help_info_in lines ∅ = Ok m →
  is_Some (m !! key) →
  strip key = key ∧ (ModuleManager.HYPHEN ∉ key).
Proof.
  intros Hm Hin. destruct (help_keys_from _ _ _ _ Hm Hin) as [Hi|]; [|done].
  rewrite lookup_empty in Hi. by destruct Hi.
Qed.

Lemma help_keys_are_clean_witness :
  strip (py "a") = py "a" ∧ (ModuleManager.HYPHEN ∉ py "a").
Proof.
  apply (help_keys_are_clean [py "# Help: a-b - c"]
           {[ py "a" := py "b - c" ]} (py "a")).
  - vm_compute. reflexivity.
  - vm_compute. eauto.
Defined.

(** ** Uploads *)

(** The state after an upload in which nothing fails. *)
Lemma transfer_file_connected env ssh o path b s st :
  heap st !! ssh = Some o →
  ssh_client o = Some (mkSSHClient true) →
  fs st !! path = Some b →
  utf8_decode b = Some s →
  open_write_fault env path = None →
  scp_put_fault env path = None →
  SSHModuleManager.transfer_file env ssh path st
  = (Ok tt,
     set_trace (λ t, t ++ [EScpPut path (unix_endings b) (remote_path o);
                           EPrint (py "File transferred successfully: "
                                   ++ path)])
       (set_fs <[path := unix_endings b]> st)).
Proof.
  intros Ho Hc Hb Hs Hw Hp.
  unfold SSHModuleManager.transfer_file,
    SSHModuleManager.convert_line_endings_to_unix, SSHModuleManager.scp_put,
    SSHModuleManager.get_transport, SSHModuleManager.deref, try_except,
    open_write, write_bytes, read_bytes.
  munfold. cbn beta iota zeta.
  rewrite Hb, (bool_decide_eq_true_2 _ (mk_is_Some _ _ eq_refl)).
  cbn. rewrite Hb. cbn. rewrite Hs. cbn. rewrite Hw. cbn.
  rewrite replace_crlf, (utf8_encode_unix_endings _ _ Hs). cbn.
  rewrite Ho. cbn. rewrite Hc, Hp. cbn.
  rewrite !lookup_insert_eq. cbn.
  unfold set_trace, set_fs. cbn.
  by rewrite insert_insert_eq, <- app_assoc, lookup_insert_eq.
Qed.

(** X6. With a session connected and nothing failing, [transfer_file] of a
    file that decodes uploads the normalised octets, and these are the
    octets the local file holds afterwards. *)
Theorem transfer_file_uploads env ssh o path b s st :
  heap st !! ssh = Some o →
  ssh_client o = Some (mkSSHClient true) →
  fs st !! path = Some b →
  utf8_decode b = Some s →
  open_write_fault env path = None →
  scp_put_fault env path = None →
  ∃ st',
    SSHModuleManager.transfer_file env ssh path st = (Ok tt, st')
    ∧ fs st' = <[path := unix_endings b]> (fs st)
    ∧ trace st'
      = trace st ++ [EScpPut path (unix_endings b) (remote_path o);
                     EPrint (py "File transferred successfully: " ++ path)].
Proof.
  intros Ho Hc Hb Hs Hw Hp.
  rewrite (transfer_file_connected env ssh o path b s st) by done.
  eexists. split; [reflexivity|]. done.
Qed.

Lemma transfer_file_uploads_witness :
  let st := Sample.connected_state [] Sample.with_logfile in
  ∃ st',
    SSHModuleManager.transfer_file (Sample.quiet []) 0 Sample.m_sh st
    = (Ok tt, st')
    ∧ fs st' = <[Sample.m_sh := unix_endings Sample.dos_source]> (fs st)
    ∧ trace st'
      = trace st ++ [EScpPut Sample.m_sh (unix_endings Sample.dos_source)
                       (remote_path (mkSSH (py "h") (py "u") (py "/tmp/")
                                       (Some (mkSSHClient true))));
                     EPrint (py "File transferred successfully: "
                             ++ Sample.m_sh)].
Proof.
  intros st.
  apply (transfer_file_uploads (Sample.quiet []) 0%nat
           (mkSSH (py "h") (py "u") (py "/tmp/") (Some (mkSSHClient true)))
           Sample.m_sh Sample.dos_source Sample.dos_source);
    vm_compute; reflexivity.
Defined.

Lemma uploads_app evs1 evs2 : uploads (evs1 ++ evs2) = uploads evs1 ++ uploads evs2.
Proof. apply omap_app. Qed.

(** [convert_line_endings_to_unix] never raises an error of class
    [Exception], and what it adds to the events is at most one printed
    line. *)
Lemma convert_only_prints env path st :
  wp (SSHModuleManager.convert_line_endings_to_unix env path) st (λ r st',
    (∀ e, r = Raise e → is_Exception e = false)
    ∧ heap st' = heap st
    ∧ (trace st' = trace st ∨ ∃ msg, trace st' = trace st ++ [EPrint msg])).
Proof.
  unfold SSHModuleManager.convert_line_endings_to_unix.
  repeat wp_step; state_simpl; repeat split; eauto; congruence.
Qed.

(** X7. [transfer_file] reports a failure by a printed line only: it never
    raises an error of class [Exception], so its caller cannot tell a failed
    upload from a successful one. With no connected session, or when the
    copy fails, nothing is uploaded. *)
Theorem transfer_file_hides_failure env ssh path st :
  let r := SSHModuleManager.transfer_file env ssh path st in
  (∀ e, r.1 = Raise e → is_Exception e = false)
  ∧ ((∀ o, heap st !! ssh = Some o → ssh_client o ≠ Some (mkSSHClient true)) →
     uploads (trace r.2) = uploads (trace st))
  ∧ (is_Some (scp_put_fault env path) →
     uploads (trace r.2) = uploads (trace st)).
Proof.
  change (wp (SSHModuleManager.transfer_file env ssh path) st (λ r st',
    (∀ e, r = Raise e → is_Exception e = false)
    ∧ ((∀ o, heap st !! ssh = Some o → ssh_client o ≠ Some (mkSSHClient true)) →
       uploads (trace st') = uploads (trace st))
    ∧ (is_Some (scp_put_fault env path) →
       uploads (trace st') = uploads (trace st)))).
  unfold SSHModuleManager.transfer_file.
  wp_step. wp_step. wp_step.
  { wp_step. state_simpl. rewrite uploads_app, app_nil_r. done. }
  wp_step. eapply wp_mono; [apply convert_only_prints|].
  intros r st1 (Hr & Hh & Ht). cbn beta.
  assert (uploads (trace st1) = uploads (trace st)) as Hu.
  { destruct Ht as [->|[msg ->]]; [done|]. by rewrite uploads_app, app_nil_r. }
  destruct r as [[]|e]; [|by rewrite Hu].
  repeat wp_step; state_simpl; rewrite ?uploads_app, ?app_nil_r, ?Hu.
  all: (split; [congruence|]); split; try done.
  intros Hn. exfalso. rewrite Hh in *. eapply Hn; [eassumption|].
  match goal with H : transport ?c = true |- _ => destruct c; cbn in H end.
  congruence.
Qed.

Lemma transfer_file_hides_failure_witness :
  (let st := Engine.initial Sample.plain in
   let r := SSHModuleManager.transfer_file (Sample.quiet []) 0 Sample.m_sh st in
   r.1 = Ok tt ∧ uploads (trace r.2) = uploads (trace st))
  ∧ (let st := Sample.connected_state [] Sample.plain in
     let r := SSHModuleManager.transfer_file Sample.no_copy 0 Sample.m_sh st in
     r.1 = Ok tt ∧ uploads (trace r.2) = uploads (trace st)).
Proof.
  split; intros st r; (split; [reflexivity|]).
  - apply (proj1 (proj2 (transfer_file_hides_failure (Sample.quiet []) 0%nat
                           Sample.m_sh st))).
    intros o Ho. vm_compute in Ho. discriminate Ho.
  - apply (proj2 (proj2 (transfer_file_hides_failure Sample.no_copy 0%nat
                           Sample.m_sh st))).
    vm_compute. eauto.
Defined.

(** ** Sessions *)

(** X8. A session is closed once: after a [SSHModuleManager.disconnect] that
    returned, the object has no client and a second disconnect of it does
    nothing; after a [handle_ssh_disconnect] that returned, a second one
    only prints that there is no session. *)
Theorem disconnect_twice ssh st st1 :
  (SSHModuleManager.disconnect ssh st = (Ok tt, st1) →
   (∃ o, heap st1 !! ssh = Some o ∧ ssh_client o = None)
   ∧ SSHModuleManager.disconnect ssh st1 = (Ok tt, st1))
  ∧ (Engine.handle_ssh_disconnect st = (Ok tt, st1) →
     Engine.handle_ssh_disconnect st1
     = (Ok tt,
        set_trace (λ t, t ++ [EPrint (py "No active SSH session to disconnect.")])
          st1)).
Proof.
  unfold Engine.handle_ssh_disconnect, SSHModuleManager.disconnect,
    SSHModuleManager.deref, SSHModuleManager.update.
  munfold. cbn beta iota zeta. split.
  - destruct (heap st !! ssh) as [o|] eqn:Ho; [|done]. cbn.
    destruct (ssh_client o) eqn:Hc; cbn.
    + intros [= <-]. cbn. rewrite list_lookup_alter_eq, Ho. cbn.
      split; [eauto|done].
    + intros [= <-]. rewrite Ho. cbn. rewrite Hc. split; [eauto|done].
  - destruct (engine_ssh_manager (app st)) as [r|] eqn:E.
    + destruct (heap st !! r) as [o|]; [|done]. cbn.
      destruct (ssh_client o); cbn; intros [= <-]; done.
    + cbn. intros [= <-]. cbn. by rewrite E.
Qed.

Lemma disconnect_twice_witness :
  let st := Sample.connected_state [] Sample.plain in
  (let st1 := (SSHModuleManager.disconnect 0 st).2 in
   (∃ o, heap st1 !! 0%nat = Some o ∧ ssh_client o = None)
   ∧ SSHModuleManager.disconnect 0 st1 = (Ok tt, st1))
  ∧ (let st1 := Sample.disconnected_state [] Sample.plain in
     Engine.handle_ssh_disconnect st1
     = (Ok tt,
        set_trace (λ t, t ++ [EPrint (py "No active SSH session to disconnect.")])
          st1)).
Proof.
  intros st. split; intros st1.
  - apply (proj1 (disconnect_twice 0%nat st st1)). vm_compute. reflexivity.
  - apply (proj2 (disconnect_twice 0%nat st st1)). vm_compute. reflexivity.
Defined.

(** ** Installing dependencies *)

Abbreviation apt_install dep :=
  [py "sudo"; py "apt"; py "install"; py "-y"; dep].

Abbreviation missing env :=
  (λ dep, ModuleManager.is_dependency_installed env dep = false).

Lemma set_trace_app evs1 evs2 st :
  set_trace (λ t, t ++ evs2) (set_trace (λ t, t ++ evs1) st)
  = set_trace (λ t, t ++ (evs1 ++ evs2)) st.
Proof. unfold set_trace. cbn. by rewrite app_assoc. Qed.

Lemma run_commands_app evs1 evs2 :
  run_commands (evs1 ++ evs2) = run_commands evs1 ++ run_commands evs2.
Proof. apply omap_app. Qed.

Lemma exec_commands_app evs1 evs2 :
  exec_commands (evs1 ++ evs2) = exec_commands evs1 ++ exec_commands evs2.
Proof. apply omap_app. Qed.

Lemma set_trace_nil st : set_trace (λ t, t ++ []) st = st.
Proof. destruct st. unfold set_trace. cbn. by rewrite app_nil_r. Qed.

(** One turn of the loop of [install_dependencies], on the local machine. *)
Lemma install_local_step env dep rest st :
  ssh_manager (manager st) = None →
  ModuleManager.install_dependencies env (dep :: rest) st
  = if ModuleManager.is_dependency_installed env dep then
      ModuleManager.install_dependencies env rest
        (set_trace (λ t, t ++ [EPrint (py "Dependency '" ++ dep
                                        ++ py "' is already installed.")]) st)
    else
      let st1 :=
        set_trace (λ t, t ++ [EPrint (py "Installing dependency: " ++ dep);
                              ERun (apt_install dep)]) st in
      match subprocess_run_fault env (apt_install dep) with
      | Some e => (Raise e, st1)
      | None => ModuleManager.install_dependencies env rest st1
      end.
Proof.
  intros Hl. cbn [ModuleManager.install_dependencies].
  unfold ModuleManager.self, ModuleManager.subprocess_run. munfold.
  cbn beta iota zeta. rewrite Hl.
  destruct (ModuleManager.is_dependency_installed env dep); cbn; [done|].
  destruct (subprocess_run_fault env _); cbn; by rewrite set_trace_app.
Qed.

Lemma install_local_run env deps st :
  ssh_manager (manager st) = None →
  (∀ dep, dep ∈ deps → missing env dep →
          subprocess_run_fault env (apt_install dep) = None) →
  ∃ evs,
    ModuleManager.install_dependencies env deps st
    = (Ok tt, set_trace (λ t, t ++ evs) st)
    ∧ run_commands evs = (λ dep, apt_install dep) <$> filter (missing env) deps
    ∧ exec_commands evs = [].
Proof.
  revert st. induction deps as [|dep rest IH]; intros st Hl Hrun.
  { exists []. by rewrite set_trace_nil. }
  rewrite install_local_step by done.
  destruct (ModuleManager.is_dependency_installed env dep) eqn:Hd.
  - destruct (IH (set_trace (λ t, t ++ [EPrint (py "Dependency '" ++ dep
                                        ++ py "' is already installed.")]) st))
      as (evs & -> & Hr & Hx); [done | |].
    { intros d Hin. apply Hrun. by right. }
    eexists. rewrite set_trace_app. split; [reflexivity|].
    rewrite filter_cons_False by congruence.
    by rewrite run_commands_app, exec_commands_app, Hr, Hx.
  - cbn zeta. rewrite Hrun by (done || by left).
    destruct (IH (set_trace (λ t, t ++ [EPrint (py "Installing dependency: " ++ dep);
                              ERun (apt_install dep)]) st))
      as (evs & -> & Hr & Hx); [done | |].
    { intros d Hin. apply Hrun. by right. }
    eexists. rewrite set_trace_app. split; [reflexivity|].
    rewrite filter_cons_True by done.
    by rewrite run_commands_app, exec_commands_app, Hr, Hx.
Qed.

(** X9. On the local machine [install_dependencies] runs the package
    command for exactly the dependencies that are not found on the search
    path, once each and in the order of the list, and never a remote
    command; the files and the engine are left alone. *)
Theorem install_dependencies_local env deps st :
  ssh_manager (manager st) = None →
  (∀ dep, dep ∈ deps → missing env dep →
          subprocess_run_fault env (apt_install dep) = None) →
  ∃ st' evs,
    ModuleManager.install_dependencies env deps st = (Ok tt, st')
    ∧ trace st' = trace st ++ evs
    ∧ run_commands evs = (λ dep, apt_install dep) <$> filter (missing env) deps
    ∧ exec_commands evs = []
    ∧ fs st' = fs st ∧ app st' = app st.
Proof.
  intros Hl Hrun.
  destruct (install_local_run env deps st Hl Hrun)
    as (evs & -> & Hr & Hx).
  eexists _, evs. split; [reflexivity|]. done.
Qed.

Lemma install_dependencies_local_witness :
  ∃ st' evs,
    ModuleManager.install_dependencies (Sample.local [py "git"] [])
      [py "git"; py "nmap"] (Engine.initial ∅) = (Ok tt, st')
    ∧ trace st' = trace (Engine.initial ∅) ++ evs
    ∧ run_commands evs
      = (λ dep, apt_install dep)
        <$> filter (missing (Sample.local [py "git"] [])) [py "git"; py "nmap"]
    ∧ exec_commands evs = []
    ∧ fs st' = fs (Engine.initial ∅) ∧ app st' = app (Engine.initial ∅).
Proof.
  apply install_dependencies_local; [reflexivity|].
  intros dep _ _. reflexivity.
Defined.

(** X10. On the local machine [install_dependencies] stops at the first
    dependency whose package command fails: the error leaves the function,
    and the dependencies after it are neither looked up nor installed. *)
Theorem install_dependencies_stops env pre dep post e st :
  ssh_manager (manager st) = None →
  (∀ d, d ∈ pre → missing env d →
        subprocess_run_fault env (apt_install d) = None) →
  missing env dep →
  subprocess_run_fault env (apt_install dep) = Some e →
  ∃ st' evs,
    ModuleManager.install_dependencies env (pre ++ dep :: post) st
    = (Raise e, st')
    ∧ trace st' = trace st ++ evs
    ∧ run_commands evs
      = (λ d, apt_install d) <$> (filter (missing env) pre ++ [dep]).
Proof.
  intros Hl Hpre Hd He.
  enough (∃ evs,
    ModuleManager.install_dependencies env (pre ++ dep :: post) st
    = (Raise e, set_trace (λ t, t ++ evs) st)
    ∧ run_commands evs
      = (λ d, apt_install d) <$> (filter (missing env) pre ++ [dep]))
    as (evs & -> & Hr) by (eexists _, evs; split; [reflexivity | done]).
  revert st Hl. induction pre as [|d pre IH]; intros st Hl.
  - rewrite app_nil_l, install_local_step, Hd by done.
    cbn zeta. rewrite He. eexists. split; [reflexivity|]. done.
  - rewrite <- app_comm_cons, install_local_step by done.
    assert (∀ d0, d0 ∈ pre → missing env d0 →
              subprocess_run_fault env (apt_install d0) = None) as Hpre'.
    { intros d0 Hin. apply Hpre. by right. }
    destruct (ModuleManager.is_dependency_installed env d) eqn:Hi.
    + edestruct IH as (evs & -> & Hr); [done | | ]; [done|].
      eexists. rewrite set_trace_app. split; [reflexivity|].
      rewrite filter_cons_False by congruence.
      by rewrite run_commands_app, Hr.
    + cbn zeta. rewrite Hpre by (done || by left).
      edestruct IH as (evs & -> & Hr); [done | | ]; [done|].
      eexists. rewrite set_trace_app. split; [reflexivity|].
      rewrite filter_cons_True by done.
      by rewrite run_commands_app, Hr.
Qed.

Lemma install_dependencies_stops_witness :
  ∃ st' evs,
    ModuleManager.install_dependencies (Sample.local [] [py "nmap"])
      ([py "git"] ++ py "nmap" :: [py "curl"]) (Engine.initial ∅)
    = (Raise CalledProcessError, st')
    ∧ trace st' = trace (Engine.initial ∅) ++ evs
    ∧ run_commands evs
      = (λ d, apt_install d)
        <$> (filter (missing (Sample.local [] [py "nmap"])) [py "git"]
             ++ [py "nmap"]).
Proof.
  apply install_dependencies_stops; try reflexivity.
  intros d ->%list_elem_of_singleton _. reflexivity.
Defined.

Abbreviation remote_install dep := (py "sudo apt install -y " ++ dep).

(** One turn of the loop of [install_dependencies], with a session. *)
Lemma install_remote_step env dep rest st ssh o out err :
  ssh_manager (manager st) = Some ssh →
  heap st !! ssh = Some o →
  ssh_client o = Some (mkSSHClient true) →
  exec_command env (remote_install dep) = Ok (out, err) →
  ModuleManager.install_dependencies env (dep :: rest) st
  = ModuleManager.install_dependencies env rest
      (set_trace (λ t, t ++ [EPrint (py "Installing dependency on remote machine: "
                                     ++ dep);
                             EExec (remote_install dep);
                             EPrintBytes (out ++ err)]) st).
Proof.
  intros Hs Ho Hc Hx. cbn [ModuleManager.install_dependencies].
  unfold ModuleManager.self, SSHModuleManager.deref, SSHModuleManager.ssh_exec,
    SSHModuleManager.get_transport.
  munfold. cbn beta iota zeta. rewrite Hs. cbn. rewrite Ho. cbn.
  rewrite Hc. cbn. rewrite Hx. cbn. by rewrite !set_trace_app.
Qed.

(** X11. With a session, [install_dependencies] runs the install command on
    the remote shell for every dependency of the list, in order, whether or
    not it is found on the search path, and installs nothing locally. *)
Theorem install_dependencies_remote env deps st ssh o :
  ssh_manager (manager st) = Some ssh →
  heap st !! ssh = Some o →
  ssh_client o = Some (mkSSHClient true) →
  (∀ dep, dep ∈ deps → ∃ streams,
     exec_command env (remote_install dep) = Ok streams) →
  ∃ st' evs,
    ModuleManager.install_dependencies env deps st = (Ok tt, st')
    ∧ trace st' = trace st ++ evs
    ∧ exec_commands evs = (λ dep, remote_install dep) <$> deps
    ∧ run_commands evs = []
    ∧ fs st' = fs st ∧ app st' = app st.
Proof.
  intros Hs Ho Hc Hx.
  enough (∃ evs,
    ModuleManager.install_dependencies env deps st
    = (Ok tt, set_trace (λ t, t ++ evs) st)
    ∧ exec_commands evs = (λ dep, remote_install dep) <$> deps
    ∧ run_commands evs = [])
    as (evs & -> & Hr & Hl) by (eexists _, evs; split; [reflexivity | done]).
  revert st Hs Ho. induction deps as [|dep rest IH]; intros st Hs Ho.
  { exists []. by rewrite set_trace_nil. }
  destruct (Hx dep) as [[out err] Hd]; [by left|].
  rewrite (install_remote_step _ _ _ _ _ _ _ _ Hs Ho Hc Hd).
  edestruct IH as (evs & -> & Hr & Hl); [ | done | done | ].
  { intros d Hin. apply Hx. by right. }
  eexists. rewrite set_trace_app. split; [reflexivity|].
  by rewrite run_commands_app, exec_commands_app, Hr, Hl.
Qed.

Lemma install_dependencies_remote_witness :
  let st := Sample.connected_state [] Sample.plain in
  ∃ st' evs,
    ModuleManager.install_dependencies (Sample.quiet []) [py "git"; py "nmap"] st
    = (Ok tt, st')
    ∧ trace st' = trace st ++ evs
    ∧ exec_commands evs = (λ dep, remote_install dep) <$> [py "git"; py "nmap"]
    ∧ run_commands evs = []
    ∧ fs st' = fs st ∧ app st' = app st.
Proof.
  intros st.
  apply (install_dependencies_remote (Sample.quiet []) [py "git"; py "nmap"] st
           0%nat (mkSSH (py "h") (py "u") (py "/tmp/") (Some (mkSSHClient true))));
    try (vm_compute; reflexivity).
  intros dep _. eexists. reflexivity.
Defined.

(** ** Removing and launching *)

(** X12. [remove_module] of an installed module deletes its file and no
    other, and leaves the table of running instances as it was: a process
    started from the file is neither stopped nor forgotten. A launch of
    the module after that finds nothing, and a second removal only reports
    that. *)
Theorem remove_module_effect env name args st :
  let path := path_join (modules_dir (manager st)) name in
  is_Some (fs st !! path) →
  remove_fault env path = None →
  ∃ st1,
    ModuleManager.remove_module env name st = (Ok true, st1)
    ∧ fs st1 = delete path (fs st)
    ∧ app st1 = app st
    ∧ trace st1 = trace st
        ++ [EPrint (py "Module " ++ name ++ py " has been removed.")]
    ∧ (ModuleManager.launch_module env name args st1).1 = Ok false
    ∧ ModuleManager.remove_module env name st1
      = (Ok false,
         set_trace (λ t, t ++ [EPrint (py "Module " ++ name ++ py " not found.")])
           st1).
Proof.
  intros path Hin Hf.
  assert (ModuleManager.remove_module env name st
          = (Ok true,
             set_trace (λ t, t ++ [EPrint (py "Module " ++ name
                                            ++ py " has been removed.")])
               (set_fs (delete path) st))) as ->.
  { unfold ModuleManager.remove_module, ModuleManager.self. munfold.
    cbn beta iota zeta. fold path.
    rewrite (bool_decide_eq_true_2 _ Hin), Hf. reflexivity. }
  eexists. split; [reflexivity|]. state_simpl.
  split; [done|]. split; [done|]. split; [done|]. split.
  - rewrite launch_missing_module_state; [done|]. state_simpl.
    apply lookup_delete_eq.
  - unfold ModuleManager.remove_module, ModuleManager.self. munfold.
    cbn beta iota zeta. state_simpl. fold path.
    rewrite bool_decide_eq_false_2; [done|].
    rewrite lookup_delete_eq. by intros [? ?].
Qed.

Lemma remove_module_effect_witness :
  let st := Engine.initial Sample.plain in
  ∃ st1,
    ModuleManager.remove_module (Sample.quiet []) (py "m.sh") st = (Ok true, st1)
    ∧ fs st1 = delete Sample.m_sh (fs st)
    ∧ app st1 = app st
    ∧ trace st1 = trace st
        ++ [EPrint (py "Module " ++ py "m.sh" ++ py " has been removed.")]
    ∧ (ModuleManager.launch_module (Sample.quiet []) (py "m.sh") [] st1).1
      = Ok false
    ∧ ModuleManager.remove_module (Sample.quiet []) (py "m.sh") st1
      = (Ok false,
         set_trace (λ t, t ++ [EPrint (py "Module " ++ py "m.sh"
                                        ++ py " not found.")]) st1).
Proof.
  intros st.
  apply (remove_module_effect (Sample.quiet []) (py "m.sh") [] st).
  - vm_compute. eauto.
  - reflexivity.
Defined.

(** X13. [launch_module] reads the descriptor of the file before it looks
    at the extension. A module file with an octet that no UTF-8 text holds
    there, after text that decodes and within the first 8192 octets, makes
    it raise [UnicodeDecodeError], whatever the extension and with or
    without a session; a file that decodes and has neither of the two
    extensions is refused with a message. In both cases nothing is
    uploaded, run or recorded. *)
Theorem launch_module_refuses env name args st b :
  let path := path_join (modules_dir (manager st)) name in
  fs st !! path = Some b →
  (∀ good bad rest,
     b = good ++ bad :: rest →
     is_Some (utf8_decode good) →
     Z.of_nat (length good) < CHUNK_SIZE →
     never_starts bad = true →
     ModuleManager.launch_module env name args st
     = (Raise UnicodeDecodeError, st))
  ∧ (is_Some (utf8_decode b) →
     endswith path (py ".sh") = false →
     endswith path (py ".py") = false →
     ModuleManager.launch_module env name args st
     = (Ok false,
        set_trace (λ t, t ++ [EPrint (py "Unsupported module type: " ++ name)])
          st)).
Proof.
  intros path Hb.
  assert (bool_decide (is_Some (fs st !! path)) = true) as Hex.
  { apply bool_decide_eq_true_2. by rewrite Hb. }
  split.
  - intros good bad rest -> [s Hs] _ Hbad.
    assert (utf8_decode (good ++ bad :: rest) = None) as Hd.
    { by rewrite (utf8_decode_app _ _ _ Hs), utf8_decode_never_starts. }
    unfold ModuleManager.launch_module, ModuleManager.self,
      ModuleManager.parse_silent_flag.
    munfold. cbn beta iota zeta. fold path. rewrite Hex. cbn.
    rewrite read_lines_eq. unfold source_lines. by rewrite Hb, Hd.
  - intros [s Hs] Hsh Hpy.
    unfold ModuleManager.launch_module, ModuleManager.self,
      ModuleManager.parse_silent_flag, ModuleManager.parse_logfile_path,
      ModuleManager.local_command.
    munfold. cbn beta iota zeta. fold path. rewrite Hex. cbn.
    rewrite read_lines_eq. unfold source_lines. rewrite Hb, Hs.
    destruct (parse_silent_flag_in_total (readlines (translate_newlines s)))
      as [v1 ->].
    rewrite read_lines_eq. unfold source_lines. rewrite Hb, Hs.
    destruct (parse_logfile_path_in_total (readlines (translate_newlines s)))
      as [v2 ->].
    by rewrite Hsh, Hpy.
Qed.

Lemma launch_module_refuses_witness :
  (let st := Engine.initial {[ py "modules/tool.sh" := py "echo " ++ [255; 10] ]} in
   ModuleManager.launch_module (Sample.quiet []) (py "tool.sh") [] st
   = (Raise UnicodeDecodeError, st))
  ∧ (let st := Engine.initial {[ py "modules/notes.txt" := py "hello" ]} in
     ModuleManager.launch_module (Sample.quiet []) (py "notes.txt") [] st
     = (Ok false,
        set_trace (λ t, t ++ [EPrint (py "Unsupported module type: "
                                      ++ py "notes.txt")]) st)).
Proof.
  split; intros st.
  - apply (proj1 (launch_module_refuses (Sample.quiet []) (py "tool.sh") [] st
                    (py "echo " ++ [255; 10]) eq_refl)
             (py "echo ") 255 [10]).
    + reflexivity.
    + vm_compute. eauto.
    + reflexivity.
    + reflexivity.
  - apply (launch_module_refuses (Sample.quiet []) (py "notes.txt") [] st
             (py "hello")); vm_compute; eauto.
Defined.

(** X14. A launch through a session starts no local process and records no
    running instance, whatever its outcome: [stop_module] has nothing to
    stop afterwards, the remote run cannot be ended from the program. *)
Theorem remote_launch_records_nothing env name args st ssh :
  ssh_manager (manager st) = Some ssh →
  let st' := (ModuleManager.launch_module env name args st).2 in
  table st' = table st
  ∧ spawned st' = spawned st
  ∧ (table st !! name = None →
     ModuleManager.stop_module name st'
     = (Ok tt,
        set_trace (λ t, t ++ [EPrint (py "No running module named " ++ name
                                      ++ py ".")]) st')).
Proof.
  intros Hs st'.
  pose proof (launch_module_remote env name args st ssh Hs) as H.
  unfold wp in H. destruct H as ((Ha & _ & Hp & _) & _). fold st' in Ha, Hp.
  split; [by rewrite Ha|]. split; [done|]. intros Hn.
  unfold ModuleManager.stop_module, ModuleManager.self. munfold.
  cbn beta iota zeta. by rewrite Ha, Hn.
Qed.

Lemma remote_launch_records_nothing_witness :
  let st := Sample.connected_state [] Sample.with_logfile in
  let st' := (ModuleManager.launch_module (Sample.quiet []) (py "m.sh") [] st).2 in
  table st' = table st
  ∧ spawned st' = spawned st
  ∧ (table st !! py "m.sh" = None →
     ModuleManager.stop_module (py "m.sh") st'
     = (Ok tt,
        set_trace (λ t, t ++ [EPrint (py "No running module named " ++ py "m.sh"
                                      ++ py ".")]) st')).
Proof.
  intros st.
  apply (remote_launch_records_nothing (Sample.quiet []) (py "m.sh") [] st 0%nat).
  reflexivity.
Defined.

(** X15. A local launch that nothing hinders returns [True], and its first
    event is the spawn of the interpreter-prefixed command, with the
    arguments as separate words, its output sent to the declared log file
    exactly when the module is silent and declares a non-empty path. The
    new handle is recorded under the module name. *)
Theorem local_launch_spawns env name args st b s is_silent logfile command :
  let path := path_join (modules_dir (manager st)) name in
  let lines := readlines (translate_newlines s) in
  ssh_manager (manager st) = None →
  spawns_and_opens env →
  fs st !! path = Some b →
  utf8_decode b = Some s →
  ModuleManager.parse_silent_flag_in lines = Ok is_silent →
  ModuleManager.parse_logfile_path_in lines = Ok logfile →
  ModuleManager.local_command path args = Some command →
  ∃ st' later,
    ModuleManager.launch_module env name args st = (Ok true, st')
    ∧ trace st'
      = trace st
        ++ EPopen command (if is_silent && truthy logfile then logfile else None)
             (spawned st) :: later
    ∧ table st' = <[name := spawned st]> (table st).
Proof.
  intros path lines Hl (Hp & Hps & Hw) Hb Hs E1 E2 Hc.
  enough (wp (ModuleManager.launch_module env name args) st (λ r st',
    r = Ok true
    ∧ (∃ later, trace st'
        = trace st
          ++ EPopen command
               (if is_silent && truthy logfile then logfile else None)
               (spawned st) :: later)
    ∧ table st' = <[name := spawned st]> (table st))) as H.
  { unfold wp in H. destruct (ModuleManager.launch_module env name args st)
      as [r st']. cbn in H. destruct H as (-> & [later Ht] & Hm).
    by exists st', later. }
  assert (∀ files, files !! path = Some b → source_lines files path = Ok lines)
    as Hsl.
  { intros files Hf. unfold source_lines. by rewrite Hf, Hs. }
  unfold ModuleManager.launch_module.
  wp_step. wp_step. cbn zeta. fold path.
  wp_step. wp_step.
  rewrite (bool_decide_eq_true_2 _ (mk_is_Some _ _ Hb)). cbn.
  wp_step. wp_step. rewrite (Hsl _ Hb). cbn. rewrite E1.
  wp_step. wp_step. rewrite (Hsl _ Hb). cbn. rewrite E2.
  rewrite Hc, Hl.
  unfold ModuleManager.popen, ModuleManager.popen_shell, open_write.
  rewrite ?Hp, ?Hps, ?Hw.
  destruct (parse_follow_log_flag_in_total lines) as [v Ev].
  destruct is_silent, logfile as [[|c l]|];
    cbn [andb truthy bool_decide default fmt];
    rewrite ?(bool_decide_eq_true_2 (is_Some (Some _))) by eauto;
    repeat wp_step; state_simpl;
    try (split; [done|]; split; [|done]; rewrite <- ?app_assoc; eauto).
  all: exfalso.
  all: rewrite Hsl in Heqr
    by first [ done
             | case_match; [done|];
               rewrite lookup_insert_ne; [done | congruence] ].
  all: cbn in Heqr; rewrite Ev in Heqr; discriminate.
Qed.

Lemma local_launch_spawns_witness :
  let st := Engine.initial Sample.silent in
  ∃ st' later,
    ModuleManager.launch_module (Sample.quiet []) (py "m.sh") [py "-v"] st
    = (Ok true, st')
    ∧ trace st'
      = trace st
        ++ EPopen [py "bash"; py "modules/m.sh"; py "-v"]
             (if true && truthy (Some (py "out.log")) then Some (py "out.log")
              else None) (spawned st) :: later
    ∧ table st' = <[py "m.sh" := spawned st]> (table st).
Proof.
  intros st.
  apply (local_launch_spawns (Sample.quiet []) (py "m.sh") [py "-v"] st
           Sample.silent_source Sample.silent_source true
           (Some (py "out.log")));
    try (vm_compute; reflexivity).
  repeat split.
Defined.

(** ** A remote launch from end to end *)

Lemma wp_eq {A} (m : M A) st r st1 (Q : result A → State → Prop) :
  m st = (r, st1) → Q r st1 → wp m st Q.
Proof. unfold wp. by intros ->. Qed.

Lemma run_remote_script_connected env ssh o name args command out err so se st :
  heap st !! ssh = Some o →
  ssh_client o = Some (mkSSHClient true) →
  SSHModuleManager.remote_command o name args = Ok command →
  exec_command env command = Ok (out, err) →
  utf8_decode out = Some so →
  utf8_decode err = Some se →
  SSHModuleManager.run_remote_script env ssh name args st
  = (Ok (SSHModuleManager.combined_output (strip so) (strip se)),
     set_trace (λ t, t ++ [EExec command]) st).
Proof.
  intros Ho Hc Hcmd Hex Hs He.
  unfold SSHModuleManager.run_remote_script, SSHModuleManager.deref,
    SSHModuleManager.ssh_exec, SSHModuleManager.get_transport.
  munfold. cbn beta iota zeta. rewrite Ho. cbn beta iota zeta.
  rewrite Hcmd, Hc. cbn. rewrite Hex. cbn. rewrite Hs. cbn. by rewrite He.
Qed.

Lemma write_text_ok env logfile text data st :
  logfile ≠ [] →
  open_write_fault env logfile = None →
  utf8_encode text = Some data →
  ModuleManager.write_text env (Some logfile) text st
  = (Ok tt, set_fs <[logfile := data]> st).
Proof.
  intros Hne Hw He. destruct logfile as [|c l]; [done|].
  unfold ModuleManager.write_text, open_write, write_bytes. rewrite Hw.
  munfold. rewrite He. cbn. unfold set_fs. cbn.
  by rewrite lookup_insert_eq, insert_insert_eq.
Qed.

(** The text [run_remote_script] returns can always be encoded. *)
Lemma combined_output_encodes out err so se :
  utf8_decode out = Some so →
  utf8_decode err = Some se →
  is_Some (utf8_encode (SSHModuleManager.combined_output (strip so) (strip se))).
Proof.
  intros Ho%utf8_encode_decode He%utf8_encode_decode.
  destruct (utf8_encode_strip so) as [x Hx]; [eauto|].
  destruct (utf8_encode_strip se) as [y Hy]; [eauto|].
  unfold SSHModuleManager.combined_output.
  destruct (truthy (Some (strip se)));
    rewrite ?utf8_encode_app, Hx, ?Hy; cbn; eauto.
Qed.

(** A launch through a connected session, up to the point where the
    output is saved: the two uploads, the remote run and the line that
    announces the log file. *)
Lemma launch_module_remote_run
    env name args st ssh o b s command logfile out err so se :
  let path := path_join (modules_dir (manager st)) name in
  ssh_manager (manager st) = Some ssh →
  heap st !! ssh = Some o →
  ssh_client o = Some (mkSSHClient true) →
  fs st !! path = Some b →
  utf8_decode b = Some s →
  is_Some (ModuleManager.local_command path args) →
  SSHModuleManager.remote_command o name args = Ok command →
  ModuleManager.parse_logfile_path_in (readlines (translate_newlines s))
    = Ok logfile →
  open_write_fault env path = None →
  scp_put_fault env path = None →
  exec_command env command = Ok (out, err) →
  utf8_decode out = Some so →
  utf8_decode err = Some se →
  ModuleManager.launch_module env name args st
  = (ModuleManager.write_text env logfile
       (SSHModuleManager.combined_output (strip so) (strip se))
     ≫= λ _, ret true)
      (set_trace
         (λ t, t ++ [EScpPut path (unix_endings b) (remote_path o);
                     EPrint (py "File transferred successfully: " ++ path);
                     EScpPut path (unix_endings (unix_endings b))
                       (remote_path o);
                     EPrint (py "File transferred successfully: " ++ path);
                     EExec command;
                     EPrint (py "Saving results to " ++ fmt logfile)])
         (set_fs <[path := unix_endings (unix_endings b)]> st)).
Proof.
  intros path Hs Ho Hc Hb Hd [c Hloc] Hcmd Hlog Hw Hput Hex Hso Hse.
  pose proof (utf8_decode_encode _ _ (utf8_encode_unix_endings _ _ Hd)) as Hd1.
  match goal with |- _ = ?rhs =>
    enough (wp (ModuleManager.launch_module env name args) st
              (λ r st', (r, st') = rhs)) as H
  end.
  { unfold wp in H. by destruct (ModuleManager.launch_module env name args st). }
  unfold ModuleManager.launch_module.
  wp_step. wp_step. cbn zeta. fold path.
  wp_step. wp_step.
  rewrite (bool_decide_eq_true_2 _ (mk_is_Some _ _ Hb)). cbn.
  wp_step. wp_step. unfold source_lines. rewrite Hb, Hd. cbn.
  destruct (parse_silent_flag_in_total (readlines (translate_newlines s)))
    as [is_silent ->].
  wp_step. wp_step. unfold source_lines. rewrite Hb, Hd. cbn. rewrite Hlog.
  rewrite Hloc, Hs.
  wp_step.
  eapply wp_eq; [by apply (transfer_file_connected env ssh o path b s)|].
  cbn beta iota. wp_step.
  eapply wp_eq.
  { apply (transfer_file_connected env ssh o path (unix_endings b)
             (unix_endings s)); state_simpl; try done.
    apply lookup_insert_eq. }
  cbn beta iota. wp_step.
  eapply wp_eq.
  { by apply (run_remote_script_connected env ssh o name args command out err
                so se). }
  cbn beta iota. wp_step. wp_step.
  unfold wp. rewrite <- surjective_pairing. f_equal.
  unfold set_trace, set_fs. cbn.
  by rewrite insert_insert_eq, <- !app_assoc.
Qed.

(** X16. A launch through a connected session in which nothing fails, from
    end to end: the module file is normalised and uploaded twice (the
    second time normalised again), one command is run on the remote shell,
    and its stripped output, encoded, is what the declared log file holds
    afterwards; the launch returns [True]. *)
Theorem remote_launch_saves_output
    env name args st ssh o b s command logfile out err so se :
  let path := path_join (modules_dir (manager st)) name in
  ssh_manager (manager st) = Some ssh →
  heap st !! ssh = Some o →
  ssh_client o = Some (mkSSHClient true) →
  fs st !! path = Some b →
  utf8_decode b = Some s →
  is_Some (ModuleManager.local_command path args) →
  SSHModuleManager.remote_command o name args = Ok command →
  ModuleManager.parse_logfile_path_in (readlines (translate_newlines s))
    = Ok (Some logfile) →
  logfile ≠ [] →
  (∀ p, open_write_fault env p = None) →
  scp_put_fault env path = None →
  exec_command env command = Ok (out, err) →
  utf8_decode out = Some so →
  utf8_decode err = Some se →
  ∃ st' data evs,
    ModuleManager.launch_module env name args st = (Ok true, st')
    ∧ utf8_decode data
      = Some (SSHModuleManager.combined_output (strip so) (strip se))
    ∧ fs st' !! logfile = Some data
    ∧ trace st' = trace st ++ evs
    ∧ uploads evs
      = [(path, unix_endings b); (path, unix_endings (unix_endings b))]
    ∧ exec_commands evs = [command].
Proof.
  intros path Hs Ho Hc Hb Hd Hloc Hcmd Hlog Hne Hw Hput Hex Hso Hse.
  destruct (combined_output_encodes out err so se Hso Hse) as [data Hdata].
  rewrite (launch_module_remote_run env name args st ssh o b s command
             (Some logfile) out err so se) by done.
  fold path. unfold mbind, M_bind, bind.
  rewrite (write_text_ok env logfile _ data) by done.
  eexists _, data, _. split; [reflexivity|].
  split; [by apply utf8_decode_encode|]. state_simpl.
  split; [apply lookup_insert_eq|]. split; [reflexivity|]. done.
Qed.

Lemma remote_launch_saves_output_witness :
  let out := py "hi" ++ [LF] in
  let st := Sample.connected_state out Sample.with_logfile in
  ∃ st' data evs,
    ModuleManager.launch_module (Sample.quiet out) (py "m.sh") [] st
    = (Ok true, st')
    ∧ utf8_decode data
      = Some (SSHModuleManager.combined_output (strip out) (strip []))
    ∧ fs st' !! py "logs/a" = Some data
    ∧ trace st' = trace st ++ evs
    ∧ uploads evs
      = [(py "modules/m.sh", unix_endings Sample.dos_source);
         (py "modules/m.sh", unix_endings (unix_endings Sample.dos_source))]
    ∧ exec_commands evs = [py "bash /tmp//m.sh "].
Proof.
  intros out st.
  apply (remote_launch_saves_output (Sample.quiet out) (py "m.sh") [] st 0%nat
           (mkSSH (py "h") (py "u") (py "/tmp/") (Some (mkSSHClient true)))
           Sample.dos_source Sample.dos_source (py "bash /tmp//m.sh ")
           (py "logs/a") out [] out []);
    try (vm_compute; reflexivity).
  - vm_compute. eauto.
  - discriminate.
Defined.

(** ** Connecting *)

(** X17. A [connect] command without a space, or with no [@] after its
    first space, only prints the usage line: no SSH manager is created and
    nothing else changes. *)
Theorem handle_ssh_connect_malformed env command st :
  (32 ∉ command)
  ∨ (∃ word rest, command = word ++ 32 :: rest ∧ (32 ∉ word) ∧ 64 ∉ rest) →
  Engine.handle_ssh_connect env command st
  = (Ok tt,
     set_trace (λ t, t ++ [EPrint (py "Invalid command format. Use 'connect user@hostname'.")])
       st).
Proof.
  unfold Engine.handle_ssh_connect, Engine.try_except_ValueError. munfold.
  intros [Hn|(word & rest & -> & Hw & Hr)].
  - by rewrite split1_missing.
  - rewrite split1_found by done. cbn. by rewrite split1_missing.
Qed.

Lemma handle_ssh_connect_malformed_witness :
  Engine.handle_ssh_connect (Sample.quiet []) (py "connect@h u")
    (Engine.initial ∅)
  = (Ok tt,
     set_trace (λ t, t ++ [EPrint (py "Invalid command format. Use 'connect user@hostname'.")])
       (Engine.initial ∅)).
Proof.
  apply handle_ssh_connect_malformed. right.
  exists (py "connect@h"), (py "u"). split; [reflexivity|].
  split; apply (bool_decide_unpack _); by vm_compute.
Defined.

Lemma alter_new {A} (f : A → A) (l : list A) x :
  alter f (length l) (l ++ [x]) = l ++ [f x].
Proof.
  replace (length l) with (length l + 0)%nat by lia.
  by rewrite alter_app_r.
Qed.

(** X18. A [connect] that succeeds creates a fresh SSH manager object, the
    earlier ones being left as they are and no earlier session closed, and
    replaces the module manager by a new one that holds the object: the
    table of running instances is empty afterwards, without any process
    having been asked to terminate. *)
Theorem handle_ssh_connect_success env word user host st :
  32 ∉ word →
  64 ∉ user →
  ssh_connect_fault env host user = None →
  ∃ st',
    Engine.handle_ssh_connect env (word ++ 32 :: user ++ 64 :: host) st
    = (Ok tt, st')
    ∧ heap st'
      = heap st ++ [mkSSH host user (py "/tmp/") (Some (mkSSHClient true))]
    ∧ engine_ssh_manager (app st') = Some (length (heap st))
    ∧ manager st'
      = ModuleManager.new (repo (app st)) (Some (length (heap st)))
    ∧ table st' = ∅
    ∧ trace st'
      = trace st
        ++ [EGetpass (py "Enter password for " ++ user ++ py "@" ++ host
                      ++ py ": ");
            EConnect host user;
            EPrint (py "Connected to " ++ host ++ py " as " ++ user)]
    ∧ Engine.connected st' = true
    ∧ fs st' = fs st.
Proof.
  intros Hw Hu Hf.
  unfold Engine.handle_ssh_connect, Engine.try_except_ValueError,
    SSHModuleManager.new, SSHModuleManager.connect, SSHModuleManager.deref,
    SSHModuleManager.update.
  munfold. rewrite split1_found by done. cbn.
  rewrite split1_found by done. cbn.
  rewrite lookup_app_r, Nat.sub_diag by done. cbn.
  rewrite Hf. cbn. eexists. split; [reflexivity|].
  unfold Engine.connected. cbn. rewrite !alter_new. cbn.
  rewrite lookup_app_r, Nat.sub_diag by done. cbn.
  rewrite <- !app_assoc. done.
Qed.

Lemma handle_ssh_connect_success_witness :
  let st := Engine.initial Sample.plain in
  ∃ st',
    Engine.handle_ssh_connect (Sample.quiet [])
      (py "connect" ++ 32 :: py "u" ++ 64 :: py "h") st
    = (Ok tt, st')
    ∧ heap st'
      = heap st ++ [mkSSH (py "h") (py "u") (py "/tmp/")
                      (Some (mkSSHClient true))]
    ∧ engine_ssh_manager (app st') = Some (length (heap st))
    ∧ manager st'
      = ModuleManager.new (repo (app st)) (Some (length (heap st)))
    ∧ table st' = ∅
    ∧ trace st'
      = trace st
        ++ [EGetpass (py "Enter password for " ++ py "u" ++ py "@" ++ py "h"
                      ++ py ": ");
            EConnect (py "h") (py "u");
            EPrint (py "Connected to " ++ py "h" ++ py " as " ++ py "u")]
    ∧ Engine.connected st' = true
    ∧ fs st' = fs st.
Proof.
  intros st. apply handle_ssh_connect_success; [| |reflexivity];
    apply (bool_decide_unpack _); by vm_compute.
Defined.

(** X19. A [connect] that the remote host refuses (with an error that is no
    [ValueError]) raises that error out of [handle_ssh_connect], after the
    engine has taken the new SSH manager and its client object has been
    created: the toolbar's test says connected although no session exists,
    while the module manager is the one from before, so launches go where
    they went before. *)
Theorem handle_ssh_connect_refused env word user host e st :
  32 ∉ word →
  64 ∉ user →
  ssh_connect_fault env host user = Some e →
  e ≠ ValueError → e ≠ UnicodeDecodeError → e ≠ UnicodeEncodeError →
  ∃ st',
    Engine.handle_ssh_connect env (word ++ 32 :: user ++ 64 :: host) st
    = (Raise e, st')
    ∧ heap st'
      = heap st ++ [mkSSH host user (py "/tmp/") (Some (mkSSHClient false))]
    ∧ engine_ssh_manager (app st') = Some (length (heap st))
    ∧ Engine.connected st' = true
    ∧ manager st' = manager st.
Proof.
  intros Hw Hu Hf H1 H2 H3.
  unfold Engine.handle_ssh_connect, Engine.try_except_ValueError,
    SSHModuleManager.new, SSHModuleManager.connect, SSHModuleManager.deref,
    SSHModuleManager.update.
  munfold. rewrite split1_found by done. cbn.
  rewrite split1_found by done. cbn.
  rewrite lookup_app_r, Nat.sub_diag by done. cbn.
  rewrite Hf. cbn.
  exists (set_trace (λ t, t ++ [EGetpass (py "Enter password for " ++ user
                                          ++ py "@" ++ host ++ py ": ");
                                EConnect host user])
            (set_heap (λ h, h ++ [mkSSH host user (py "/tmp/")
                                    (Some (mkSSHClient false))])
               (set_app (set_engine_ssh_manager (Some (length (heap st)))) st))).
  split.
  { unfold set_trace, set_heap, set_app. cbn. rewrite alter_new.
    destruct e; try done; cbn; by rewrite <- app_assoc. }
  unfold Engine.connected. cbn.
  rewrite lookup_app_r, Nat.sub_diag by done. cbn.
  done.
Qed.

Lemma handle_ssh_connect_refused_witness :
  let st := Engine.initial Sample.plain in
  ∃ st',
    Engine.handle_ssh_connect Sample.refusing
      (py "connect" ++ 32 :: py "u" ++ 64 :: py "h") st
    = (Raise SSHException, st')
    ∧ heap st'
      = heap st ++ [mkSSH (py "h") (py "u") (py "/tmp/")
                      (Some (mkSSHClient false))]
    ∧ engine_ssh_manager (app st') = Some (length (heap st))
    ∧ Engine.connected st' = true
    ∧ manager st' = manager st.
Proof.
  intros st. apply handle_ssh_connect_refused; try done;
    apply (bool_decide_unpack _); by vm_compute.
Defined.

(** ** Reading a log *)

(** X20. [read_log] of a name whose file exists prints the text of the
    file, its line breaks read as universal newlines, and raises
    [UnicodeDecodeError] when the file is not valid UTF-8. The file is the
    one of that name in the logs directory; an absolute name is taken as it
    is, outside that directory. Nothing but the printed line changes. *)
Theorem read_log_outcome log_file st b :
  let path := if startswith log_file (py "/") then log_file
              else py "logs/" ++ log_file in
  fs st !! path = Some b →
  Engine.read_log log_file st
  = match utf8_decode b with
    | Some s =>
        (Ok tt, set_trace (λ t, t ++ [EPrint (translate_newlines s)]) st)
    | None => (Raise UnicodeDecodeError, st)
    end.
Proof.
  intros path Hb.
  assert (path_join (py "logs") log_file = path) as Hp.
  { unfold path_join, path. by destruct (startswith log_file (py "/")). }
  unfold Engine.read_log, Engine.try_except_FileNotFoundError,
    Engine.read_text, read_bytes.
  munfold. cbn beta iota zeta. rewrite Hp, Hb. cbn.
  by destruct (utf8_decode b).
Qed.

Lemma read_log_outcome_witness :
  (let st := Engine.initial {[ py "/etc/hostname" := py "pi" ++ [CR; LF] ]} in
   Engine.read_log (py "/etc/hostname") st
   = (Ok tt, set_trace (λ t, t ++ [EPrint (py "pi" ++ [LF])]) st))
  ∧ (let st := Engine.initial {[ py "logs/run.log" := [255] ]} in
     Engine.read_log (py "run.log") st = (Raise UnicodeDecodeError, st)).
Proof.
  split; intros st.
  - apply (read_log_outcome (py "/etc/hostname") st (py "pi" ++ [CR; LF])).
    reflexivity.
  - apply (read_log_outcome (py "run.log") st [255]). reflexivity.
Defined.

Lemma write_text_inv env path text st st1 :
  ModuleManager.write_text env (Some path) text st = (Ok tt, st1) →
  ∃ data, utf8_encode text = Some data ∧ st1 = set_fs <[path := data]> st.
Proof.
  destruct path as [|c l]; [done|].
  unfold ModuleManager.write_text, open_write, write_bytes.
  destruct (open_write_fault env _); [done|]. munfold. cbn.
  destruct (utf8_encode text) as [data|]; [|done]. cbn.
  intros [= <-]. exists data. split; [done|]. unfold set_fs. cbn.
  by rewrite lookup_insert_eq, insert_insert_eq.
Qed.

(** X21. What a launch saves under the logs directory, [read_log] shows:
    after the text has been written to [logs/<name>], reading [<name>]
    prints that text, its line breaks read as universal newlines. *)
Theorem saved_output_is_read env name text st st1 :
  startswith name (py "/") = false →
  ModuleManager.write_text env (Some (py "logs/" ++ name)) text st
    = (Ok tt, st1) →
  Engine.read_log name st1
  = (Ok tt, set_trace (λ t, t ++ [EPrint (translate_newlines text)]) st1).
Proof.
  intros Hn Hw.
  assert (path_join (py "logs") name = py "logs/" ++ name) as Hp.
  { unfold path_join. by rewrite Hn. }
  destruct (write_text_inv _ _ _ _ _ Hw) as (data & He & ->).
  unfold Engine.read_log, Engine.try_except_FileNotFoundError,
    Engine.read_text, read_bytes.
  munfold. cbn beta iota zeta. rewrite Hp. state_simpl.
  rewrite lookup_insert_eq. cbn.
  by rewrite (utf8_decode_encode _ _ He).
Qed.

Lemma saved_output_is_read_witness :
  let st := Engine.initial Sample.plain in
  let st1 := set_fs <[py "logs/run.log" := py "hi" ++ [CR; LF]]> st in
  Engine.read_log (py "run.log") st1
  = (Ok tt,
     set_trace (λ t, t ++ [EPrint (translate_newlines (py "hi" ++ [CR; LF]))])
       st1).
Proof.
  intros st st1.
  apply (saved_output_is_read (Sample.quiet []) (py "run.log")
           (py "hi" ++ [CR; LF]) st st1); vm_compute; reflexivity.
Defined.

(** ** The two extension tests *)

Lemma endswith_modules name ext :
  ext = py ".sh" ∨ ext = py ".py" →
  endswith (path_join (py "modules") name) ext = endswith name ext.
Proof.
  intros Hext. unfold path_join.
  destruct (startswith name (py "/")); [done|].
  change (bool_decide (py "modules" = [])) with false.
  change (endswith (py "modules") (py "/")) with false. cbn match.
  unfold endswith. rewrite !reverse_app.
  destruct (reverse name) as [|x [|y [|z r]]];
    destruct Hext as [-> | ->]; cbn; by rewrite ?andb_false_r.
Qed.

(** X22. The extension test of [launch_module], made on the path of the
    module file, and the one of [run_remote_script], made on the module
    name, agree: a module that passes the first never meets the
    [ValueError] of the second. *)
Theorem extension_tests_agree o name args :
  is_Some (ModuleManager.local_command (path_join (py "modules") name) args)
  ↔ ∃ command, SSHModuleManager.remote_command o name args = Ok command.
Proof.
  unfold ModuleManager.local_command, SSHModuleManager.remote_command.
  rewrite !endswith_modules by eauto.
  destruct (endswith name (py ".sh")); [split; eauto|].
  destruct (endswith name (py ".py")); [split; eauto|].
  split; [by intros [? ?] | by intros [? ?]].
Qed.

(** X23. [read_log] of a name at whose path there is no file, and where the
    system would let one be created (so that the path names no directory
    and is a path the system accepts), prints that the log file is not
    found and returns; nothing else changes. *)
Theorem read_log_missing env log_file st :
  let path := path_join (py "logs") log_file in
  fs st !! path = None →
  open_write_fault env path = None →
  Engine.read_log log_file st
  = (Ok tt,
     set_trace (λ t, t ++ [EPrint (py "Log file " ++ log_file
                                   ++ py " not found.")]) st).
Proof.
  intros path Hb _.
  unfold Engine.read_log, Engine.try_except_FileNotFoundError,
    Engine.read_text, read_bytes.
  munfold. cbn beta iota zeta. fold path. by rewrite Hb.
Qed.

Lemma read_log_missing_witness :
  let st := Engine.initial Sample.plain in
  Engine.read_log (py "run.log") st
  = (Ok tt,
     set_trace (λ t, t ++ [EPrint (py "Log file " ++ py "run.log"
                                   ++ py " not found.")]) st).
Proof.
  intros st. apply (read_log_missing (Sample.quiet []) (py "run.log") st);
    reflexivity.
Defined.

(** ** What the operations return and what they raise *)




